(** * The activity-debounced message aggregator of [static/chat.js]

    A shallow embedding of the chat widget's script.  The script is a set of
    event-loop callbacks over a handful of module-level variables and DOM
    nodes; here every callback is a function on an explicit [state] record
    and an execution is a list of [event]s, one per event-loop turn.

    Modelling conventions.
    - A JavaScript string is the list of its UTF-16 code units.
    - Values read from a parsed JSON body are [jsval]s; a call that raises a
      [TypeError] in JavaScript returns [None].
    - Time is a counter of milliseconds.  [EvWait d] lets [d] ms pass and
      runs every timer callback that becomes due, at its deadline and in
      deadline order (the ideal behaviour of [setTimeout]); [EvTick] and
      [EvTimer] let a callback run later than its deadline, as a busy event
      loop does.
    - A row of [messagesEl] records the fields of the message it was built
      from.  Of the DOM calls, [classList.add] raises on a bad class name,
      and an assignment to [textContent] raises when its value cannot be
      converted to a string.
    - The scroll offset of the chat body depends on the layout; the state
      counts the assignments the script makes to it. *)

From Stdlib Require Import String Ascii.
From Stdlib Require Import NArith ZArith Bool Lia List.
Import ListNotations.
Local Open Scope N_scope.
Set Warnings "-register-all".

(** ** Strings *)

Module JsString.

Definition jsstring := list N.

(** An ASCII literal as a JavaScript string. *)
Definition lit (s : string) : jsstring :=
  map N_of_ascii (list_ascii_of_string s).

Definition eqb (a b : jsstring) : bool :=
  if list_eq_dec N.eq_dec a b then true else false.

(** WhiteSpace and LineTerminator code points of ECMAScript, the characters
    [String.prototype.trim] strips. *)
Definition is_ws (c : N) : bool :=
  ((9 <=? c) && (c <=? 13))
  || (c =? 32) || (c =? 160) || (c =? 5760)
  || ((8192 <=? c) && (c <=? 8202))
  || (c =? 8232) || (c =? 8233) || (c =? 8239) || (c =? 8287)
  || (c =? 12288) || (c =? 65279).

Fixpoint trimStart (s : jsstring) : jsstring :=
  match s with
  | [] => []
  | c :: r => if is_ws c then trimStart r else s
  end.

Definition trimEnd (s : jsstring) : jsstring := rev (trimStart (rev s)).

Definition trim (s : jsstring) : jsstring := trimEnd (trimStart s).

(** [Array.prototype.join] on an array of strings. *)
Fixpoint join (sep : jsstring) (l : list jsstring) : jsstring :=
  match l with
  | [] => []
  | [x] => x
  | x :: r => x ++ sep ++ join sep r
  end.

Definition space : jsstring := [32].

(** A string that starts and ends with a non-blank character. *)
Definition clean (s : jsstring) : Prop :=
  exists c r, s = c :: r /\ is_ws c = false /\ is_ws (last s c) = false.

End JsString.
Import JsString.

(** ** Values of a parsed JSON body *)

Module JsValue.

(** [JUndefined] is never produced by [JSON.parse]; it is the result of
    reading a property that is not there.  Of a number only its being zero
    is ever observed by this script. *)
Inductive jsval : Type :=
| JUndefined
| JNull
| JBool (b : bool)
| JNum (z : Z)
| JStr (s : jsstring)
| JArr (items : list jsval)
| JObj (fields : list (jsstring * jsval)).

(** The outcome of a promise. *)
Inductive settled (A : Type) : Type :=
| Rejected
| Resolved (a : A).
Arguments Rejected {A}.
Arguments Resolved {A} a.

(** ToBoolean. *)
Definition truthy (v : jsval) : bool :=
  match v with
  | JUndefined | JNull => false
  | JBool b => b
  | JNum z => negb (Z.eqb z 0)
  | JStr s => match s with [] => false | _ => true end
  | JArr _ | JObj _ => true
  end.

(** The first binding of [k] among the own properties [fs]. *)
Fixpoint assoc (k : jsstring) (fs : list (jsstring * jsval)) : jsval :=
  match fs with
  | [] => JUndefined
  | (k', v) :: r => if JsString.eqb k k' then v else assoc k r
  end.

(** [v.k] for the property names this script reads from JSON data on the
    chat path ([bot], [text], [sender], [time]); none of them is a built-in
    property of a string, number, boolean or array.  [None] is the
    [TypeError] raised on [null] and [undefined]. *)
Definition get (v : jsval) (k : jsstring) : option jsval :=
  match v with
  | JUndefined | JNull => None
  | JObj fs => Some (assoc k fs)
  | _ => Some JUndefined
  end.

(** [v.trim()]: only a string has a callable [trim]. *)
Definition call_trim (v : jsval) : option jsstring :=
  match v with
  | JStr s => Some (trim s)
  | _ => None
  end.

(** [v || d]. *)
Definition or_else (v d : jsval) : jsval := if truthy v then v else d.

(** [DOMTokenList.add(v)] converts [v] to a string and raises a
    [DOMException] when the string is empty or holds ASCII whitespace.  The
    string of an array is the comma-join of the strings of its elements,
    [null] and [undefined] counting as empty; the string of an object is
    "[object Object]"; that of a number, a boolean, [null] or [undefined]
    is never empty and holds no blank. *)
Definition is_ascii_ws (c : N) : bool :=
  (c =? 9) || (c =? 10) || (c =? 12) || (c =? 13) || (c =? 32).

Fixpoint str_empty (v : jsval) : bool :=
  match v with
  | JStr s => match s with [] => true | _ => false end
  | JArr items =>
      match items with
      | [] => true
      | [x] => match x with
               | JUndefined | JNull => true
               | _ => str_empty x
               end
      | _ => false
      end
  | _ => false
  end.

Fixpoint str_has_ws (v : jsval) : bool :=
  match v with
  | JStr s => existsb is_ascii_ws s
  | JArr items => existsb str_has_ws items
  | JObj _ => true
  | _ => false
  end.

Definition token_ok (v : jsval) : bool :=
  negb (str_empty v) && negb (str_has_ws v).

(** [k] is among the own properties [fs]. *)
Definition has_key (k : jsstring) (fs : list (jsstring * jsval)) : bool :=
  existsb (fun kv => JsString.eqb k (fst kv)) fs.

(** ToString raises a [TypeError] on [v].  An object read from JSON has no
    callable property of its own, so an own [toString] hides the inherited
    method and no primitive is found; without one the object converts to
    "[object Object]".  An array converts its elements, [null] and
    [undefined] apart, and joins them. *)
Fixpoint str_raises (v : jsval) : bool :=
  match v with
  | JObj fs => has_key (lit "toString") fs
  | JArr items => existsb str_raises items
  | _ => false
  end.

End JsValue.
Import JsValue.

(** ** The page state *)

Module Chat.

(** A child of [messagesEl]: a message bubble built by
    [createMessageBubble], or the three-dot typing indicator. *)
Inductive row : Type :=
| Bubble (sender : jsval) (text : jsval) (time : jsval)
| TypingRow.

Inductive log_entry : Type :=
| ErrorLoadingHistory
| FailedToSend
| ErrorSendingMessage.

(** Where a suspended [flushPendingChunks] activation waits. *)
Inductive send_phase : Type :=
| AwaitFetch
| AwaitJson.

(** Where the one [loadHistory] activation waits. *)
Inductive history_phase : Type :=
| HistoryAwaitFetch
| HistoryAwaitJson
| HistoryDone.

Record request : Type := mkRequest {
  req_id : N;
  req_text : jsstring;
  req_phase : send_phase
}.

Record state : Type := mkState {
  inputValue : jsstring;            (* inputEl.value *)
  pendingChunks : list jsstring;    (* let pendingChunks *)
  pendingTimer : option N;          (* let pendingTimer: null or a handle *)
  typingBubbleEl : bool;            (* let typingBubbleEl is not null *)
  messagesEl : list row;            (* children of messagesEl *)
  sendDisabled : bool;              (* sendBtn.disabled *)
  clock : N;                        (* ms elapsed *)
  timers : list (N * N);            (* scheduled callbacks: handle, deadline *)
  nextHandle : N;                   (* next setTimeout handle *)
  inflight : list request;          (* suspended POST /send activations *)
  nextRequest : N;
  sent : list jsstring;             (* text of every POST /send body, in order *)
  console : list log_entry;         (* console.error calls, in order *)
  history : history_phase;          (* the loadHistory activation *)
  pushed : list jsstring;           (* history variable: every pushed chunk *)
  scrolls : N                       (* history variable: assignments to
                                       chatBodyEl.scrollTop *)
}.

Definition INACTIVITY_MS : N := 4000.

Definition set_inputValue v s :=
  mkState v (pendingChunks s) (pendingTimer s) (typingBubbleEl s)
    (messagesEl s) (sendDisabled s) (clock s) (timers s) (nextHandle s)
    (inflight s) (nextRequest s) (sent s) (console s) (history s) (pushed s)
    (scrolls s).
Definition set_pendingChunks v s :=
  mkState (inputValue s) v (pendingTimer s) (typingBubbleEl s)
    (messagesEl s) (sendDisabled s) (clock s) (timers s) (nextHandle s)
    (inflight s) (nextRequest s) (sent s) (console s) (history s) (pushed s)
    (scrolls s).
Definition set_pendingTimer v s :=
  mkState (inputValue s) (pendingChunks s) v (typingBubbleEl s)
    (messagesEl s) (sendDisabled s) (clock s) (timers s) (nextHandle s)
    (inflight s) (nextRequest s) (sent s) (console s) (history s) (pushed s)
    (scrolls s).
Definition set_typingBubbleEl v s :=
  mkState (inputValue s) (pendingChunks s) (pendingTimer s) v
    (messagesEl s) (sendDisabled s) (clock s) (timers s) (nextHandle s)
    (inflight s) (nextRequest s) (sent s) (console s) (history s) (pushed s)
    (scrolls s).
Definition set_messagesEl v s :=
  mkState (inputValue s) (pendingChunks s) (pendingTimer s) (typingBubbleEl s)
    v (sendDisabled s) (clock s) (timers s) (nextHandle s)
    (inflight s) (nextRequest s) (sent s) (console s) (history s) (pushed s)
    (scrolls s).
Definition set_sendDisabled v s :=
  mkState (inputValue s) (pendingChunks s) (pendingTimer s) (typingBubbleEl s)
    (messagesEl s) v (clock s) (timers s) (nextHandle s)
    (inflight s) (nextRequest s) (sent s) (console s) (history s) (pushed s)
    (scrolls s).
Definition set_clock v s :=
  mkState (inputValue s) (pendingChunks s) (pendingTimer s) (typingBubbleEl s)
    (messagesEl s) (sendDisabled s) v (timers s) (nextHandle s)
    (inflight s) (nextRequest s) (sent s) (console s) (history s) (pushed s)
    (scrolls s).
Definition set_timers v s :=
  mkState (inputValue s) (pendingChunks s) (pendingTimer s) (typingBubbleEl s)
    (messagesEl s) (sendDisabled s) (clock s) v (nextHandle s)
    (inflight s) (nextRequest s) (sent s) (console s) (history s) (pushed s)
    (scrolls s).
Definition set_nextHandle v s :=
  mkState (inputValue s) (pendingChunks s) (pendingTimer s) (typingBubbleEl s)
    (messagesEl s) (sendDisabled s) (clock s) (timers s) v
    (inflight s) (nextRequest s) (sent s) (console s) (history s) (pushed s)
    (scrolls s).
Definition set_inflight v s :=
  mkState (inputValue s) (pendingChunks s) (pendingTimer s) (typingBubbleEl s)
    (messagesEl s) (sendDisabled s) (clock s) (timers s) (nextHandle s)
    v (nextRequest s) (sent s) (console s) (history s) (pushed s)
    (scrolls s).
Definition set_nextRequest v s :=
  mkState (inputValue s) (pendingChunks s) (pendingTimer s) (typingBubbleEl s)
    (messagesEl s) (sendDisabled s) (clock s) (timers s) (nextHandle s)
    (inflight s) v (sent s) (console s) (history s) (pushed s)
    (scrolls s).
Definition set_sent v s :=
  mkState (inputValue s) (pendingChunks s) (pendingTimer s) (typingBubbleEl s)
    (messagesEl s) (sendDisabled s) (clock s) (timers s) (nextHandle s)
    (inflight s) (nextRequest s) v (console s) (history s) (pushed s)
    (scrolls s).
Definition set_console v s :=
  mkState (inputValue s) (pendingChunks s) (pendingTimer s) (typingBubbleEl s)
    (messagesEl s) (sendDisabled s) (clock s) (timers s) (nextHandle s)
    (inflight s) (nextRequest s) (sent s) v (history s) (pushed s)
    (scrolls s).
Definition set_history v s :=
  mkState (inputValue s) (pendingChunks s) (pendingTimer s) (typingBubbleEl s)
    (messagesEl s) (sendDisabled s) (clock s) (timers s) (nextHandle s)
    (inflight s) (nextRequest s) (sent s) (console s) v (pushed s)
    (scrolls s).
Definition set_pushed v s :=
  mkState (inputValue s) (pendingChunks s) (pendingTimer s) (typingBubbleEl s)
    (messagesEl s) (sendDisabled s) (clock s) (timers s) (nextHandle s)
    (inflight s) (nextRequest s) (sent s) (console s) (history s) v
    (scrolls s).
Definition set_scrolls v s :=
  mkState (inputValue s) (pendingChunks s) (pendingTimer s) (typingBubbleEl s)
    (messagesEl s) (sendDisabled s) (clock s) (timers s) (nextHandle s)
    (inflight s) (nextRequest s) (sent s) (console s) (history s) (pushed s)
    v.

(** The state once the script has run to its last line: listeners are
    registered and [loadHistory()] is suspended on its [fetch]. *)
Definition init : state :=
  mkState [] [] None false [] false 0 [] 1 [] 0 [] [] HistoryAwaitFetch [] 0.

Notation "'let?' x := e 'in' k" :=
  (match e with Some x => k | None => None end)
  (at level 10, x name, e at level 100, k at level 200, only parsing).

(** ** The renderer *)

(** [chatBodyEl.scrollTop = chatBodyEl.scrollHeight]: the view is moved to
    the bottom of the list as it is now.  Where that is depends on the
    layout, so the state records that the assignment was made. *)
Definition scrollToBottom (s : state) : state :=
  set_scrolls (scrolls s + 1) s.

(** The row built from [msg.sender], [msg.text] and [msg.time || ""].
    [row.classList.add("message-row", msg.sender)] raises on a bad token
    (and on a sender that has no string, which is no good token either);
    the two assignments to [textContent] raise on a value that has no
    string. *)
Definition createMessageBubble (msg : jsval) : option row :=
  let? sender := get msg (lit "sender") in
  if negb (token_ok sender) then None else
  let? text := get msg (lit "text") in
  if str_raises text then None else
  let? time := get msg (lit "time") in
  let shown := or_else time (JStr []) in
  if str_raises shown then None else
  Some (Bubble sender text shown).

Definition appendMessage (msg : jsval) (s : state) : option state :=
  if negb (truthy msg) then Some s else
  let? text := get msg (lit "text") in
  if negb (truthy text) then Some s else
  let? t := call_trim text in
  if JsString.eqb t [] then Some s else
  let? bubble := createMessageBubble msg in
  Some (scrollToBottom (set_messagesEl (messagesEl s ++ [bubble]) s)).

Definition is_typing (r : row) : bool :=
  match r with TypingRow => true | Bubble _ _ _ => false end.

Definition showTypingIndicator (s : state) : state :=
  if typingBubbleEl s then s
  else scrollToBottom
         (set_messagesEl (messagesEl s ++ [TypingRow])
            (set_typingBubbleEl true s)).

(** [typingBubbleEl.remove()] detaches the indicator row if it is attached;
    no other indicator row is ever attached ([indicator_unique] below). *)
Definition hideTypingIndicator (s : state) : state :=
  if typingBubbleEl s
  then set_typingBubbleEl false
         (set_messagesEl (filter (fun r => negb (is_typing r)) (messagesEl s)) s)
  else s.

Definition console_error (e : log_entry) (s : state) : state :=
  set_console (console s ++ [e]) s.

Definition setSending (isSending : bool) (s : state) : state :=
  set_sendDisabled isSending s.

(** ** Timers *)

(** [setTimeout(flushPendingChunks, ms)]: the handle and the new state. *)
Definition setTimeout (ms : N) (s : state) : N * state :=
  (nextHandle s,
   set_nextHandle (nextHandle s + 1)
     (set_timers (timers s ++ [(nextHandle s, clock s + ms)]) s)).

Definition clearTimeout (h : N) (s : state) : state :=
  set_timers (filter (fun t => negb (fst t =? h)) (timers s)) s.

Definition bumpActivityTimer (s : state) : state :=
  match pendingChunks s with
  | [] => s
  | _ :: _ =>
      let s1 := match pendingTimer s with
                | Some h => if h =? 0 then s else clearTimeout h s
                | None => s
                end in
      let (h, s2) := setTimeout INACTIVITY_MS s1 in
      set_pendingTimer (Some h) s2
  end.

(** ** Committing a chunk *)

(** [now.toTimeString().slice(0, 5)], with the clock read as local time
    since midnight. *)
Definition localTime (t : N) : jsstring :=
  let m := t / 60000 in
  let hh := (m / 60) mod 24 in
  let mm := m mod 60 in
  [48 + hh / 10; 48 + hh mod 10; 58; 48 + mm / 10; 48 + mm mod 10].

Definition sendMessage (s : state) : state :=
  let text := trim (inputValue s) in
  match text with
  | [] => s
  | _ :: _ =>
      let tempUserMsg :=
        JObj [(lit "sender", JStr (lit "user"));
              (lit "text", JStr text);
              (lit "time", JStr (localTime (clock s)))] in
      match appendMessage tempUserMsg s with
      | None => s
      | Some s1 =>
          let s2 := set_inputValue [] s1 in
          let s3 := set_pushed (pushed s2 ++ [text])
                      (set_pendingChunks (pendingChunks s2 ++ [text]) s2) in
          bumpActivityTimer s3
      end
  end.

(** ** Flushing *)

(** [fetch("/send", { body: JSON.stringify({ text }) })]: the request is
    issued and the activation suspends on it. *)
Definition fetchSend (text : jsstring) (s : state) : state :=
  set_nextRequest (nextRequest s + 1)
    (set_sent (sent s ++ [text])
       (set_inflight
          (inflight s ++ [mkRequest (nextRequest s) text AwaitFetch]) s)).

(** The timer callback, up to its first [await]. *)
Definition flushPendingChunks (s : state) : state :=
  match pendingChunks s with
  | [] => s
  | _ :: _ =>
      let mergedText := trim (join space (pendingChunks s)) in
      let s1 := set_pendingTimer None (set_pendingChunks [] s) in
      match mergedText with
      | [] => s1
      | _ :: _ => fetchSend mergedText (showTypingIndicator (setSending true s1))
      end
  end.

Definition find_request (r : N) (ph : send_phase) (s : state) : bool :=
  existsb (fun q => (req_id q =? r) &&
                    match req_phase q, ph with
                    | AwaitFetch, AwaitFetch | AwaitJson, AwaitJson => true
                    | _, _ => false
                    end) (inflight s).

Definition drop_request (r : N) (s : state) : state :=
  set_inflight (filter (fun q => negb (req_id q =? r)) (inflight s)) s.

Definition await_json (r : N) (s : state) : state :=
  set_inflight
    (map (fun q => if req_id q =? r
                   then mkRequest (req_id q) (req_text q) AwaitJson else q)
       (inflight s)) s.

(** The [catch] block followed by the [finally] block. *)
Definition flush_catch (s : state) : state :=
  setSending false (console_error ErrorSendingMessage (hideTypingIndicator s)).

(** The activation resumes when the [fetch] promise settles; [Resolved ok]
    carries [res.ok]. *)
Definition flush_fetched (r : N) (res : settled bool) (s : state) : state :=
  if find_request r AwaitFetch s then
    match res with
    | Rejected => flush_catch (drop_request r s)
    | Resolved ok =>
        let s1 := hideTypingIndicator s in
        if negb ok
        then setSending false
               (setSending false (console_error FailedToSend (drop_request r s1)))
        else await_json r s1
    end
  else s.

(** [data.bot && data.bot.text && data.bot.text.trim() !== ""]. *)
Definition reply_present (data : jsval) : option bool :=
  let? bot := get data (lit "bot") in
  if negb (truthy bot) then Some false else
  let? text := get bot (lit "text") in
  if negb (truthy text) then Some false else
  let? t := call_trim text in
  Some (negb (JsString.eqb t [])).

(** The activation resumes when [res.json()] settles. *)
Definition flush_parsed (r : N) (body : settled jsval) (s : state) : state :=
  if find_request r AwaitJson s then
    let s0 := drop_request r s in
    match body with
    | Rejected => flush_catch s0
    | Resolved data =>
        match reply_present data with
        | None => flush_catch s0
        | Some false => setSending false s0
        | Some true =>
            match (let? bot := get data (lit "bot") in appendMessage bot s0) with
            | None => flush_catch s0
            | Some s1 => setSending false s1
            end
        end
    end
  else s.

(** ** Loading the transcript *)

(** [items.forEach(appendMessage)]: the state reached and whether the loop
    ran to its end. *)
Fixpoint forEach_appendMessage (items : list jsval) (s : state) : state * bool :=
  match items with
  | [] => (s, true)
  | msg :: rest =>
      match appendMessage msg s with
      | None => (s, false)
      | Some s1 => forEach_appendMessage rest s1
      end
  end.

Definition loadHistory_fetched (res : settled unit) (s : state) : state :=
  match history s with
  | HistoryAwaitFetch =>
      match res with
      | Rejected => console_error ErrorLoadingHistory (set_history HistoryDone s)
      | Resolved _ => set_history HistoryAwaitJson s
      end
  | _ => s
  end.

Definition loadHistory_parsed (body : settled jsval) (s : state) : state :=
  match history s with
  | HistoryAwaitJson =>
      let s0 := set_history HistoryDone s in
      match body with
      | Rejected => console_error ErrorLoadingHistory s0
      | Resolved data =>
          let s1 := set_messagesEl [] s0 in
          match data with
          | JArr items =>
              let (s2, finished) := forEach_appendMessage items s1 in
              if finished then scrollToBottom s2
              else console_error ErrorLoadingHistory s2
          | _ => console_error ErrorLoadingHistory s1
          end
      end
  | _ => s
  end.

(** ** The event loop *)

(** The due timer with the least deadline, the earliest scheduled first. *)
Fixpoint earliest (ts : list (N * N)) : option (N * N) :=
  match ts with
  | [] => None
  | t :: r =>
      match earliest r with
      | None => Some t
      | Some u => if snd t <=? snd u then Some t else Some u
      end
  end.

Definition next_due (limit : N) (ts : list (N * N)) : option (N * N) :=
  earliest (filter (fun t => snd t <=? limit) ts).

(** A timer fires: the browser retires it and runs the callback. *)
Definition fire (t : N * N) (s : state) : state :=
  flushPendingChunks
    (set_clock (N.max (clock s) (snd t)) (clearTimeout (fst t) s)).

Fixpoint run_timers (fuel : nat) (limit : N) (s : state) : state :=
  match fuel with
  | O => s
  | S fuel' =>
      match next_due limit (timers s) with
      | None => s
      | Some t => run_timers fuel' limit (fire t s)
      end
  end.

(** [d] ms pass.  The callback schedules no timer, so one round per
    scheduled timer runs all that become due. *)
Definition wait (d : N) (s : state) : state :=
  let limit := clock s + d in
  set_clock limit (run_timers (length (timers s)) limit s).

(** A timer that is held back fires late: the callback of handle [h] runs
    if it is scheduled and its deadline has passed. *)
Definition fire_handle (h : N) (s : state) : state :=
  match find (fun t => (fst t =? h) && (snd t <=? clock s)) (timers s) with
  | Some t => fire t s
  | None => s
  end.

(** The [keydown] listener of [inputEl]. *)
Definition onKeydown (key : jsstring) (shiftKey : bool) (s : state) : state :=
  let s1 := bumpActivityTimer s in
  if JsString.eqb key (lit "Enter") && negb shiftKey then sendMessage s1 else s1.

(** The [click] listener of [sendBtn]; a disabled button gets no click. *)
Definition onClickSend (s : state) : state :=
  if sendDisabled s then s else sendMessage s.

Inductive event : Type :=
| EvInput (v : jsstring)                      (* the user edits the field *)
| EvKeydown (key : jsstring) (shiftKey : bool)
| EvClickSend
| EvWait (d : N)                              (* d ms pass, timers on time *)
| EvTick (d : N)                              (* d ms pass, timers held back *)
| EvTimer (h : N)                             (* the due timer h fires *)
| EvSendFetched (r : N) (res : settled bool)
| EvSendParsed (r : N) (body : settled jsval)
| EvHistoryFetched (res : settled unit)
| EvHistoryParsed (body : settled jsval).

Definition step (s : state) (e : event) : state :=
  match e with
  | EvInput v => set_inputValue v s
  | EvKeydown key shiftKey => onKeydown key shiftKey s
  | EvClickSend => onClickSend s
  | EvWait d => wait d s
  | EvTick d => set_clock (clock s + d) s
  | EvTimer h => fire_handle h s
  | EvSendFetched r res => flush_fetched r res s
  | EvSendParsed r body => flush_parsed r body s
  | EvHistoryFetched res => loadHistory_fetched res s
  | EvHistoryParsed body => loadHistory_parsed body s
  end.

Definition run (evs : list event) (s : state) : state := fold_left step evs s.

Definition reachable (s : state) : Prop := exists evs, s = run evs init.

(** The commit gesture: the field holds [text] and Enter is pressed. *)
Definition commit (text : jsstring) : list event :=
  [EvInput text; EvKeydown (lit "Enter") false].

End Chat.

(** ** The debug panel *)

Module DebugPanel.

Inductive fetch_phase : Type :=
| StateAwaitFetch
| StateAwaitJson.

Inductive log_entry : Type :=
| ErrorLoadingUserState.

Section WithRenderer.

(** The markup [renderDebugContent] builds.  The function evaluates one
    template literal and then assigns it to [debugBody.innerHTML]; the
    template is not interpreted here.  [None] stands for a [TypeError]
    raised while the template is evaluated, that is before the assignment. *)
Variable html : Type.
Variable renderDebugContent : jsval -> option html.

(** What [debugBody] shows. *)
Inductive body : Type :=
| Loading                 (* "Fetching current memory and state" *)
| CouldntLoad             (* "Couldn't load state. Check console / backend." *)
| Content (h : html).

Record state : Type := mkState {
  overlayHidden : bool;                    (* debugOverlay has class hidden *)
  debugBody : body;
  pending : list (N * fetch_phase);        (* suspended openDebugPanel activations *)
  nextId : N;
  console : list log_entry
}.

(** [openDebugPanel], up to its first [await]. *)
Definition openDebugPanel (s : state) : state :=
  mkState false Loading (pending s ++ [(nextId s, StateAwaitFetch)])
    (nextId s + 1) (console s).

Definition closeDebugPanel (s : state) : state :=
  mkState true (debugBody s) (pending s) (nextId s) (console s).

(** The [click] listener of [debugOverlay]. *)
Definition onOverlayClick (targetIsOverlay : bool) (s : state) : state :=
  if targetIsOverlay then closeDebugPanel s else s.

Definition is_pending (r : N) (ph : fetch_phase) (s : state) : bool :=
  existsb (fun q => (fst q =? r) &&
                    match snd q, ph with
                    | StateAwaitFetch, StateAwaitFetch
                    | StateAwaitJson, StateAwaitJson => true
                    | _, _ => false
                    end) (pending s).

Definition drop (r : N) (s : state) : state :=
  mkState (overlayHidden s) (debugBody s)
    (filter (fun q => negb (fst q =? r)) (pending s)) (nextId s) (console s).

(** The [catch] block. *)
Definition open_catch (s : state) : state :=
  mkState (overlayHidden s) CouldntLoad (pending s) (nextId s)
    (console s ++ [ErrorLoadingUserState]).

Definition openDebugPanel_fetched (r : N) (res : settled bool) (s : state) : state :=
  if is_pending r StateAwaitFetch s then
    match res with
    | Rejected => open_catch (drop r s)
    | Resolved ok =>
        if negb ok then open_catch (drop r s)
        else mkState (overlayHidden s) (debugBody s)
               (map (fun q => if fst q =? r then (fst q, StateAwaitJson) else q)
                  (pending s))
               (nextId s) (console s)
    end
  else s.

Definition openDebugPanel_parsed (r : N) (data : settled jsval) (s : state) : state :=
  if is_pending r StateAwaitJson s then
    match data with
    | Rejected => open_catch (drop r s)
    | Resolved d =>
        match renderDebugContent d with
        | None => open_catch (drop r s)
        | Some h =>
            let s0 := drop r s in
            mkState (overlayHidden s0) (Content h) (pending s0) (nextId s0)
              (console s0)
        end
    end
  else s.

End WithRenderer.

Arguments Loading {html}.
Arguments CouldntLoad {html}.
Arguments Content {html} h.
Arguments mkState {html}.
Arguments overlayHidden {html}.
Arguments debugBody {html}.
Arguments pending {html}.
Arguments nextId {html}.
Arguments console {html}.
Arguments openDebugPanel {html}.
Arguments closeDebugPanel {html}.
Arguments onOverlayClick {html}.
Arguments is_pending {html}.
Arguments drop {html}.
Arguments open_catch {html}.
Arguments openDebugPanel_fetched {html}.
Arguments openDebugPanel_parsed {html}.

End DebugPanel.

(** ** Scenarios and invariants *)

Module Scenario.
Import Chat.

(** The two ways to commit: Enter without Shift in the field, or a click
    on the send button. *)
Inductive gesture : Type :=
| ByEnter
| ByButton.

(** A user gesture that counts as activity: a commit of [text] (the field
    holds [text] and the commit gesture is made), or any other keystroke. *)
Inductive signal : Type :=
| Commit (via : gesture) (text : jsstring)
| Activity (key : jsstring) (shiftKey : bool).

(** The test of the [keydown] listener. *)
Definition committing (key : jsstring) (shiftKey : bool) : bool :=
  JsString.eqb key (lit "Enter") && negb shiftKey.

Definition commit_events (via : gesture) (text : jsstring) : list event :=
  EvInput text ::
  match via with
  | ByEnter => [EvKeydown (lit "Enter") false]
  | ByButton => [EvClickSend]
  end.

Definition signal_events (g : signal) : list event :=
  match g with
  | Commit via text => commit_events via text
  | Activity key shiftKey => [EvKeydown key shiftKey]
  end.

(** Commits carry text that is not blank; a plain keystroke does not commit. *)
Definition signal_ok (g : signal) : Prop :=
  match g with
  | Commit _ text => trim text <> []
  | Activity key shiftKey => committing key shiftKey = false
  end.

Definition uses_button (g : signal) : bool :=
  match g with
  | Commit ByButton _ => true
  | _ => false
  end.

(** A burst: each signal comes [gap] ms after the previous one. *)
Definition burst := list (N * signal).

Definition burst_events (b : burst) : list event :=
  flat_map (fun gs => EvWait (fst gs) :: signal_events (snd gs)) b.

Definition quick (b : burst) : Prop :=
  Forall (fun gs => fst gs < INACTIVITY_MS /\ signal_ok (snd gs)) b.

(** The trimmed fragments a burst commits, in order. *)
Definition fragment (g : signal) : list jsstring :=
  match g with
  | Commit _ text => [trim text]
  | Activity _ _ => []
  end.

Definition fragments (b : burst) : list jsstring :=
  flat_map (fun gs => fragment (snd gs)) b.

(** The button is used only while it is enabled. *)
Definition button_free (s : state) (gs : list signal) : Prop :=
  existsb uses_button gs = true -> sendDisabled s = false.

(** The message bubbles shown, the typing indicator left out. *)
Definition bubbles (s : state) : list row :=
  filter (fun r => negb (is_typing r)) (messagesEl s).

(** An event that ends a suspended flush: its request fails, is answered
    with a non-success status, or its body has been read. *)
Definition completes (s : state) (e : event) : bool :=
  match e with
  | EvSendFetched r Rejected => find_request r AwaitFetch s
  | EvSendFetched r (Resolved ok) => find_request r AwaitFetch s && negb ok
  | EvSendParsed r _ => find_request r AwaitJson s
  | _ => false
  end.

(** The one timer slot: the table of scheduled callbacks holds exactly the
    callback [pendingTimer] names. *)
Definition slot_ok (s : state) : Prop :=
  0 < nextHandle s /\
  match pendingTimer s with
  | None => timers s = []
  | Some h =>
      h <> 0 /\ h < nextHandle s /\
      exists deadline, timers s = [(h, deadline)]
  end.

(** The payloads sent are the joins of consecutive groups of the chunks
    pushed, and the chunks not yet sent are the buffer. *)
Definition groups_ok (s : state) : Prop :=
  exists groups,
    pushed s = concat groups ++ pendingChunks s /\
    sent s = map (join space) groups /\
    Forall (fun g => g <> []) groups.

Record Inv (s : state) : Prop := mkInv {
  inv_slot : slot_ok s;
  inv_armed : pendingTimer s = None <-> pendingChunks s = [];
  inv_clean : Forall clean (pendingChunks s);
  inv_pushed : Forall clean (pushed s);
  inv_groups : groups_ok s
}.

(** The part of the state the aggregator owns. *)
Definition core (s : state) :=
  (pendingChunks s, pendingTimer s, timers s, nextHandle s, pushed s, sent s).

(** The buffer holds [chunks] and nothing beyond [base] has been sent. *)
Definition Pending (s : state) (chunks base : list jsstring) : Prop :=
  Inv s /\ pendingChunks s = chunks /\ chunks <> [] /\ sent s = base.

(** Moreover the callback is due a full quiet period from now. *)
Definition Armed (s : state) (chunks base : list jsstring) : Prop :=
  Pending s chunks base /\
  exists h, timers s = [(h, clock s + INACTIVITY_MS)].

(** Everything but the timer slot. *)
Definition beside_timer (s : state) :=
  (inputValue s, pendingChunks s, typingBubbleEl s, messagesEl s,
   sendDisabled s, clock s, inflight s, nextRequest s, sent s, console s,
   history s, pushed s, scrolls s).

(** Everything but the children of [messagesEl] and the scrolling of the
    view that goes with a new child. *)
Definition beside_messages (s : state) :=
  (inputValue s, pendingChunks s, pendingTimer s, typingBubbleEl s,
   sendDisabled s, clock s, timers s, nextHandle s, inflight s,
   nextRequest s, sent s, console s, history s, pushed s).

Definition no_typing (rows : list row) : Prop :=
  Forall (fun r => is_typing r = false) rows.

(** The indicator row is attached only while [typingBubbleEl] refers to it. *)
Definition typing_ok (s : state) : Prop :=
  typingBubbleEl s = false -> no_typing (messagesEl s).

(** The number of indicator rows attached. *)
Definition indicators (s : state) : nat :=
  length (filter is_typing (messagesEl s)).

(** A completion that is a failure: the transport fails, the status is not
    a success, or the body cannot be read. *)
Definition failure (e : event) : bool :=
  match e with
  | EvSendFetched _ Rejected
  | EvSendFetched _ (Resolved false)
  | EvSendParsed _ Rejected => true
  | _ => false
  end.

(** The body holds a bot record whose text is a string that is not blank. *)
Definition has_reply (data : jsval) : Prop :=
  exists fs bfs t,
    data = JObj fs /\ assoc (lit "bot") fs = JObj bfs /\
    assoc (lit "text") bfs = JStr t /\ trim t <> [].

(** The bubble drawn for a bot record with own properties [bfs]. *)
Definition reply_bubble (bfs : list (jsstring * jsval)) : row :=
  Bubble (assoc (lit "sender") bfs) (assoc (lit "text") bfs)
    (or_else (assoc (lit "time") bfs) (JStr [])).

(** The renderer can build the bubble of a record with own properties
    [fs]: the sender is a class name the DOM takes, and the time, or the
    empty string in its place, has a string. *)
Definition drawable (fs : list (jsstring * jsval)) : bool :=
  token_ok (assoc (lit "sender") fs)
  && negb (str_raises (or_else (assoc (lit "time") fs) (JStr []))).

End Scenario.

(** ** Records, requests and quiet stretches *)

Module Coverage.
Import Chat Scenario.

(** A record [appendMessage] does not raise on: its text is falsy, or a
    blank string, or a string and the renderer can build its bubble. *)
Definition acceptable (msg : jsval) : bool :=
  match msg with
  | JObj fs =>
      match assoc (lit "text") fs with
      | JStr t =>
          match trim t with
          | [] => true
          | _ :: _ => drawable fs
          end
      | text => negb (truthy text)
      end
  | _ => true
  end.

(** The bubble a record is drawn as, if any. *)
Definition record_rows (msg : jsval) : list row :=
  match msg with
  | JObj fs =>
      match assoc (lit "text") fs with
      | JStr t =>
          match trim t with
          | [] => []
          | _ :: _ => [reply_bubble fs]
          end
      | _ => []
      end
  | _ => []
  end.

(** The records before the first one that raises. *)
Fixpoint before_raise (items : list jsval) : list jsval :=
  match items with
  | [] => []
  | msg :: rest => if acceptable msg then msg :: before_raise rest else []
  end.

(** Events in which the user neither presses a key nor clicks. *)
Definition passive (e : event) : bool :=
  match e with
  | EvKeydown _ _ | EvClickSend => false
  | _ => true
  end.

(** The time that passes in a list of events. *)
Fixpoint elapsed (evs : list event) : N :=
  match evs with
  | [] => 0
  | EvWait d :: r | EvTick d :: r => d + elapsed r
  | _ :: r => elapsed r
  end.

(** A settling of a request or of the transcript fetch. *)
Definition is_response (e : event) : bool :=
  match e with
  | EvSendFetched _ _ | EvSendParsed _ _
  | EvHistoryFetched _ | EvHistoryParsed _ => true
  | _ => false
  end.

(** The requests in flight are told apart by their ids, and each carries
    the payload that was sent under its id. *)
Definition requests_ok (s : state) : Prop :=
  nextRequest s = N.of_nat (length (sent s)) /\
  NoDup (map req_id (inflight s)) /\
  Forall (fun q => nth_error (sent s) (N.to_nat (req_id q)) = Some (req_text q))
    (inflight s).

(** The network side of the state. *)
Definition network (s : state) := (inflight s, nextRequest s, sent s).

(** A request whose [fetch] has not settled yet. *)
Definition fetching (q : request) : bool :=
  match req_phase q with
  | AwaitFetch => true
  | AwaitJson => false
  end.

(** The button is disabled, and the indicator referenced, only on behalf of
    a request. *)
Definition controls_ok (s : state) : Prop :=
  (sendDisabled s = true -> inflight s <> []) /\
  (typingBubbleEl s = true -> existsb fetching (inflight s) = true).

End Coverage.

(** ** The debug panel's event loop *)

Module DebugLoop.
Import DebugPanel.

Section WithRenderer.

Variable html : Type.
Variable renderDebugContent : jsval -> option html.

Inductive event : Type :=
| EvOpen                                   (* click on debugBtn *)
| EvClose                                  (* click on debugCloseBtn *)
| EvOverlayClick (targetIsOverlay : bool)  (* click inside debugOverlay *)
| EvStateFetched (r : N) (res : settled bool)
| EvStateParsed (r : N) (data : settled jsval).

Definition step (p : DebugPanel.state html) (e : event) : DebugPanel.state html :=
  match e with
  | EvOpen => openDebugPanel p
  | EvClose => closeDebugPanel p
  | EvOverlayClick targetIsOverlay => onOverlayClick targetIsOverlay p
  | EvStateFetched r res => openDebugPanel_fetched r res p
  | EvStateParsed r data => openDebugPanel_parsed renderDebugContent r data p
  end.

Definition run (evs : list event) (p : DebugPanel.state html)
  : DebugPanel.state html :=
  fold_left step evs p.

(** Clicks that only show or hide the overlay. *)
Definition is_close (e : event) : bool :=
  match e with
  | EvClose | EvOverlayClick _ => true
  | _ => false
  end.

End WithRenderer.

Arguments step {html}.
Arguments run {html}.

End DebugLoop.

(** * Facts *)

Import Chat Scenario Coverage.

(** ** Strings *)

Section StringFacts.
Import JsString.

Lemma jsstring_eqb_eq a b : eqb a b = true <-> a = b.
Proof.
  unfold eqb. destruct (list_eq_dec N.eq_dec a b); split; congruence.
Qed.

Lemma trimStart_head c r : is_ws c = false -> trimStart (c :: r) = c :: r.
Proof. intros H. simpl. now rewrite H. Qed.

Lemma trimStart_cases s :
  trimStart s = [] \/
  exists c r, trimStart s = c :: r /\ is_ws c = false.
Proof.
  induction s as [|c r IH]; simpl; [now left|].
  destruct (is_ws c) eqn:E; [exact IH|].
  right. now exists c, r.
Qed.

Lemma trimStart_suffix s : exists p, s = p ++ trimStart s.
Proof.
  induction s as [|c r [p IH]]; simpl.
  - now exists [].
  - destruct (is_ws c).
    + exists (c :: p). simpl. now f_equal.
    + now exists [].
Qed.

Lemma last_app_cons {A} (p : list A) x q d : last (p ++ x :: q) d = last (x :: q) d.
Proof.
  induction p as [|a p IH]; [reflexivity|].
  change ((a :: p) ++ x :: q) with (a :: (p ++ x :: q)).
  destruct (p ++ x :: q) eqn:E.
  - now destruct p.
  - simpl in *. exact IH.
Qed.

Lemma last_indep {A} (x : A) q d d' : last (x :: q) d = last (x :: q) d'.
Proof.
  revert x. induction q as [|y q IH]; intros x; [reflexivity|].
  simpl in *. apply IH.
Qed.

Lemma rev_head_last {A} (l : list A) c r d :
  rev l = c :: r -> last l d = c.
Proof.
  intros H. apply (f_equal (@rev A)) in H. rewrite rev_involutive in H.
  subst l. simpl. rewrite last_last. reflexivity.
Qed.

Lemma trimEnd_clean s c :
  s <> [] -> is_ws (last s c) = false -> trimEnd s = s.
Proof.
  intros Hne Hl. unfold trimEnd.
  destruct (rev s) as [|x r] eqn:E.
  - apply (f_equal (@rev N)) in E. rewrite rev_involutive in E. now subst.
  - rewrite (rev_head_last s x r c E) in Hl.
    rewrite trimStart_head by exact Hl.
    rewrite <- E. apply rev_involutive.
Qed.

Lemma trim_clean s : clean s -> trim s = s.
Proof.
  intros (c & r & -> & Hc & Hl). unfold trim.
  rewrite trimStart_head by exact Hc.
  now apply trimEnd_clean with (c := c).
Qed.

Lemma clean_nonempty s : clean s -> s <> [].
Proof. intros (c & r & -> & _). discriminate. Qed.

(** The result of [trim] is either empty or clean. *)
Lemma trim_cases s : trim s = [] \/ clean (trim s).
Proof.
  unfold trim, trimEnd.
  destruct (trimStart_cases (rev (trimStart s))) as [E | (c & r & E & Hc)].
  - left. now rewrite E.
  - right. rewrite E.
    destruct (trimStart_suffix (rev (trimStart s))) as [p Hp].
    rewrite E in Hp.
    assert (Hs : trimStart s = rev r ++ c :: rev p).
    { apply (f_equal (@rev N)) in Hp. rewrite rev_involutive in Hp.
      rewrite Hp, rev_app_distr. simpl. now rewrite <- app_assoc. }
    destruct (trimStart_cases s) as [E0 | (c0 & r0 & E0 & Hc0)].
    + rewrite E0 in Hs. now destruct (rev r).
    + rewrite E0 in Hs.
      assert (Hd : rev (c :: r) = rev r ++ [c]) by reflexivity.
      destruct (rev r) as [|y q] eqn:Er.
      * simpl in Hs. injection Hs as -> _.
        exists c, []. rewrite Hd. simpl. auto.
      * simpl in Hs. injection Hs as -> _.
        exists y, (q ++ [c]). rewrite Hd. split; [reflexivity|].
        split; [exact Hc0|].
        rewrite last_last. exact Hc.
Qed.

Lemma trim_nonempty_clean s : trim s <> [] -> clean (trim s).
Proof. intros H. destruct (trim_cases s); [contradiction|assumption]. Qed.

Lemma trim_idem s : trim (trim s) = trim s.
Proof.
  destruct (trim_cases s) as [E|H].
  - rewrite E. reflexivity.
  - now apply trim_clean.
Qed.

Lemma clean_app a sep b : clean a -> clean b -> clean (a ++ sep ++ b).
Proof.
  intros (c & r & -> & Hc & _) (c' & r' & -> & Hc' & Hl').
  exists c, (r ++ sep ++ c' :: r'). split; [reflexivity|]. split; [exact Hc|].
  rewrite app_assoc, last_app_cons. rewrite (last_indep c' r' c c'). exact Hl'.
Qed.

Lemma join_cons sep x y r : join sep (x :: y :: r) = x ++ sep ++ join sep (y :: r).
Proof. reflexivity. Qed.

Lemma join_clean sep l : l <> [] -> Forall clean l -> clean (join sep l).
Proof.
  induction l as [|x r IH]; [congruence|].
  intros _ HF. inversion HF as [|? ? Hx Hr]; subst.
  destruct r as [|y r]; [exact Hx|].
  rewrite join_cons. apply clean_app; [exact Hx|].
  apply IH; [discriminate|exact Hr].
Qed.

End StringFacts.

(** ** What each callback does *)

Section Callbacks.

Lemma localTime_cons t : exists c r, localTime t = c :: r.
Proof. unfold localTime. eauto. Qed.

Lemma nonempty_cons {A} (l : list A) : l <> [] -> exists x r, l = x :: r.
Proof. destruct l as [|x r]; [congruence|eauto]. Qed.

Lemma eqb_nonempty t : t <> [] -> JsString.eqb t [] = false.
Proof.
  intros H. destruct (JsString.eqb t []) eqn:E; [|reflexivity].
  apply jsstring_eqb_eq in E. contradiction.
Qed.

(** A value that has no string is no class name either: in
    [createMessageBubble] the sender is converted before anything else, and
    a sender on which the conversion raises is refused like a bad token. *)
Lemma str_raises_has_ws : forall v, str_raises v = true -> str_has_ws v = true.
Proof.
  fix IH 1. intros [| |b|z|t|items|fs]; cbn; try discriminate.
  - induction items as [|x r IHr]; cbn; [discriminate|].
    intros H. apply orb_true_iff in H. destruct H as [H|H].
    + now rewrite (IH x H).
    + rewrite (IHr H). apply orb_true_r.
  - reflexivity.
Qed.

Lemma str_raises_token_ok v : str_raises v = true -> token_ok v = false.
Proof.
  intros H. unfold token_ok. rewrite (str_raises_has_ws v H).
  apply andb_false_r.
Qed.

(** The echo of a committed chunk is always drawn. *)
Lemma appendMessage_user t time s :
  clean t ->
  appendMessage
    (JObj [(lit "sender", JStr (lit "user")); (lit "text", JStr t);
           (lit "time", JStr (localTime time))]) s
  = Some (scrollToBottom
            (set_messagesEl
               (messagesEl s ++
                [Bubble (JStr (lit "user")) (JStr t) (JStr (localTime time))])
               s)).
Proof.
  intros Hc. pose proof (clean_nonempty t Hc) as Hne.
  destruct (nonempty_cons t Hne) as (c & r & ->).
  unfold appendMessage. cbn [truthy negb get assoc].
  change (JsString.eqb (lit "text") (lit "sender")) with false.
  change (JsString.eqb (lit "text") (lit "text")) with true.
  cbn [truthy negb call_trim].
  rewrite (trim_clean _ Hc), (eqb_nonempty _ Hne).
  unfold createMessageBubble. cbn [get assoc].
  change (JsString.eqb (lit "sender") (lit "sender")) with true.
  change (JsString.eqb (lit "text") (lit "sender")) with false.
  change (JsString.eqb (lit "text") (lit "text")) with true.
  change (JsString.eqb (lit "time") (lit "sender")) with false.
  change (JsString.eqb (lit "time") (lit "text")) with false.
  change (JsString.eqb (lit "time") (lit "time")) with true.
  cbn iota. destruct (localTime_cons time) as (c' & r' & E).
  unfold or_else. rewrite E. reflexivity.
Qed.

Lemma bumpActivityTimer_empty s :
  pendingChunks s = [] -> bumpActivityTimer s = s.
Proof. intros H. unfold bumpActivityTimer. now rewrite H. Qed.

(** Re-arming leaves exactly the new callback scheduled. *)
Lemma bumpActivityTimer_armed s :
  slot_ok s -> pendingChunks s <> [] ->
  bumpActivityTimer s
  = set_pendingTimer (Some (nextHandle s))
      (set_nextHandle (nextHandle s + 1)
         (set_timers [(nextHandle s, clock s + INACTIVITY_MS)] s)).
Proof.
  intros [Hn Hs] Hne. unfold bumpActivityTimer.
  destruct (nonempty_cons _ Hne) as (x & r & E). rewrite E.
  destruct (pendingTimer s) as [h|] eqn:Et.
  - destruct Hs as (Hh & _ & dl & Ht).
    apply N.eqb_neq in Hh. rewrite Hh.
    unfold setTimeout, clearTimeout. cbn. rewrite Ht. cbn.
    rewrite N.eqb_refl. reflexivity.
  - unfold setTimeout. cbn. rewrite Hs. reflexivity.
Qed.

Lemma sendMessage_blank s : trim (inputValue s) = [] -> sendMessage s = s.
Proof. intros H. unfold sendMessage. now rewrite H. Qed.

Lemma sendMessage_chunk s :
  trim (inputValue s) <> [] ->
  sendMessage s
  = bumpActivityTimer
      (set_pushed (pushed s ++ [trim (inputValue s)])
         (set_pendingChunks (pendingChunks s ++ [trim (inputValue s)])
            (set_inputValue []
               (scrollToBottom
                  (set_messagesEl
                     (messagesEl s ++
                      [Bubble (JStr (lit "user")) (JStr (trim (inputValue s)))
                         (JStr (localTime (clock s)))]) s))))).
Proof.
  intros Hne. unfold sendMessage.
  destruct (nonempty_cons _ Hne) as (c & r & E).
  rewrite (appendMessage_user (trim (inputValue s)) (clock s) s
             (trim_nonempty_clean _ Hne)).
  rewrite E. reflexivity.
Qed.

Lemma flushPendingChunks_empty s :
  pendingChunks s = [] -> flushPendingChunks s = s.
Proof. intros H. unfold flushPendingChunks. now rewrite H. Qed.

(** With a buffer of clean chunks the flush always reaches the request,
    which it issues with the buffer and the timer handle already cleared. *)
Lemma flushPendingChunks_clean s :
  pendingChunks s <> [] -> Forall clean (pendingChunks s) ->
  flushPendingChunks s
  = fetchSend (join space (pendingChunks s))
      (showTypingIndicator
         (setSending true
            (set_pendingTimer None (set_pendingChunks [] s)))).
Proof.
  intros Hne Hc. unfold flushPendingChunks.
  destruct (nonempty_cons _ Hne) as (x & r & E).
  pose proof (join_clean space _ Hne Hc) as Hj.
  rewrite (trim_clean _ Hj).
  destruct (nonempty_cons _ (clean_nonempty _ Hj)) as (c & q & Ej).
  rewrite E in *. rewrite Ej. reflexivity.
Qed.

Lemma wait_idle d s :
  timers s = [] -> wait d s = set_clock (clock s + d) s.
Proof. intros H. unfold wait. rewrite H. reflexivity. Qed.

Lemma wait_early d s h deadline :
  timers s = [(h, deadline)] -> clock s + d < deadline ->
  wait d s = set_clock (clock s + d) s.
Proof.
  intros H Hlt. unfold wait. rewrite H. cbn [length run_timers].
  unfold next_due. rewrite H. cbn [filter snd].
  apply N.leb_gt in Hlt. rewrite Hlt. reflexivity.
Qed.

Lemma wait_due d s h deadline :
  timers s = [(h, deadline)] -> deadline <= clock s + d ->
  wait d s = set_clock (clock s + d) (fire (h, deadline) s).
Proof.
  intros H Hle. unfold wait. rewrite H. cbn [length run_timers].
  unfold next_due. rewrite H. cbn [filter snd].
  apply N.leb_le in Hle. rewrite Hle. reflexivity.
Qed.

(** One round per scheduled timer is enough: after a wait no timer that was
    due is left. *)
Lemma timers_flushPendingChunks s : timers (flushPendingChunks s) = timers s.
Proof.
  unfold flushPendingChunks, fetchSend, showTypingIndicator, setSending,
    scrollToBottom.
  destruct (pendingChunks s); [reflexivity|].
  destruct (trim (join space (j :: l))); [reflexivity|].
  cbn. now destruct (typingBubbleEl s).
Qed.

Lemma timers_fire t s :
  timers (fire t s) = filter (fun u => negb (fst u =? fst t)) (timers s).
Proof. unfold fire. now rewrite timers_flushPendingChunks. Qed.

Lemma earliest_In ts t : earliest ts = Some t -> In t ts.
Proof.
  revert t. induction ts as [|u r IH]; intros t; cbn; [discriminate|].
  destruct (earliest r) as [v|].
  - destruct (snd u <=? snd v); intros H; injection H as <-;
      [now left|right; now apply IH].
  - intros H. injection H as <-. now left.
Qed.

Lemma next_due_In limit ts t : next_due limit ts = Some t -> In t ts.
Proof.
  unfold next_due. intros H. apply earliest_In in H.
  apply filter_In in H. tauto.
Qed.

Lemma filter_handle_shorter (ts : list (N * N)) t :
  In t ts ->
  (length (filter (fun u => negb (fst u =? fst t)%N) ts) < length ts)%nat.
Proof.
  induction ts as [|u r IH]; [contradiction|].
  intros [->|Hin]; cbn.
  - rewrite N.eqb_refl. cbn.
    pose proof (filter_length_le (fun u => negb (fst u =? fst t)) r). lia.
  - destruct (fst u =? fst t); cbn.
    + pose proof (filter_length_le (fun u => negb (fst u =? fst t)) r). lia.
    + apply IH in Hin. lia.
Qed.

Lemma run_timers_complete fuel limit : forall s,
  (length (timers s) <= fuel)%nat ->
  next_due limit (timers (run_timers fuel limit s)) = None.
Proof.
  induction fuel as [|n IH]; intros s Hl; cbn [run_timers].
  - destruct (timers s); [reflexivity|cbn in Hl; lia].
  - destruct (next_due limit (timers s)) as [t|] eqn:E; [|exact E].
    apply IH. rewrite timers_fire.
    pose proof (filter_handle_shorter _ t (next_due_In _ _ _ E)). lia.
Qed.

Lemma wait_complete d s :
  next_due (clock s + d) (timers (wait d s)) = None.
Proof. unfold wait. cbn. now apply run_timers_complete. Qed.

End Callbacks.

(** ** The aggregator's variables are its own *)

Section Frames.

Ltac break_match :=
  repeat match goal with
         | |- context [match ?x with _ => _ end] => destruct x eqn:?
         | |- context [if ?x then _ else _] => destruct x eqn:?
         end.

Lemma core_appendMessage msg s s' :
  appendMessage msg s = Some s' -> core s' = core s.
Proof.
  unfold appendMessage. intros H.
  repeat match type of H with
         | context [match ?x with _ => _ end] => destruct x eqn:?
         | context [if ?x then _ else _] => destruct x eqn:?
         end; inversion H; subst; reflexivity.
Qed.

Lemma core_forEach items : forall s,
  core (fst (forEach_appendMessage items s)) = core s.
Proof.
  induction items as [|m r IH]; intros s; [reflexivity|].
  cbn [forEach_appendMessage].
  destruct (appendMessage m s) as [s1|] eqn:E; [|reflexivity].
  rewrite IH. now apply core_appendMessage with (msg := m).
Qed.

Lemma core_flush_catch s : core (flush_catch s) = core s.
Proof.
  unfold flush_catch, setSending, console_error, hideTypingIndicator.
  now destruct (typingBubbleEl s).
Qed.

Lemma core_flush_fetched r res s : core (flush_fetched r res s) = core s.
Proof.
  unfold flush_fetched, flush_catch, setSending, console_error,
    hideTypingIndicator, drop_request, await_json.
  break_match; reflexivity.
Qed.

Lemma core_flush_parsed r body s : core (flush_parsed r body s) = core s.
Proof.
  unfold flush_parsed.
  destruct (find_request r AwaitJson s); [|reflexivity].
  destruct body as [|data]; [now rewrite core_flush_catch|].
  destruct (reply_present data) as [[|]|]; try now rewrite core_flush_catch.
  - destruct (get data (lit "bot")) as [bot|]; [|now rewrite core_flush_catch].
    destruct (appendMessage bot (drop_request r s)) as [s1|] eqn:E;
      [|now rewrite core_flush_catch].
    apply core_appendMessage in E. exact E.
  - reflexivity.
Qed.

Lemma core_loadHistory_fetched res s : core (loadHistory_fetched res s) = core s.
Proof. unfold loadHistory_fetched. break_match; reflexivity. Qed.

Lemma core_loadHistory_parsed body s : core (loadHistory_parsed body s) = core s.
Proof.
  unfold loadHistory_parsed.
  destruct (history s); try reflexivity.
  destruct body as [|data]; [reflexivity|].
  destruct data; try reflexivity.
  pose proof (core_forEach items
                (set_messagesEl [] (set_history HistoryDone s))) as H.
  destruct (forEach_appendMessage items _) as [s2 [|]]; exact H.
Qed.

(** The invariant speaks about the aggregator's variables only. *)
Lemma Inv_core s s' : core s' = core s -> Inv s -> Inv s'.
Proof.
  unfold core. intros E [Hs Ha Hc Hp Hg]. injection E as E1 E2 E3 E4 E5 E6.
  constructor.
  - unfold slot_ok in *. rewrite E2, E3, E4. exact Hs.
  - rewrite E1, E2. exact Ha.
  - rewrite E1. exact Hc.
  - rewrite E5. exact Hp.
  - unfold groups_ok in *. rewrite E1, E5, E6. exact Hg.
Qed.

End Frames.

(** ** The invariant holds between turns *)

Section Invariant.

Lemma Inv_init : Inv init.
Proof.
  constructor; unfold slot_ok, groups_ok; cbn.
  - split; reflexivity.
  - tauto.
  - constructor.
  - constructor.
  - exists []. cbn. auto.
Qed.

Lemma Inv_neq_cons s : Inv s -> pendingChunks s <> [] ->
  exists h deadline, pendingTimer s = Some h /\ timers s = [(h, deadline)].
Proof.
  intros [[_ Hs] Ha _ _ _] Hne.
  destruct (pendingTimer s) as [h|].
  - destruct Hs as (_ & _ & dl & Ht). eauto.
  - exfalso. apply Hne. now apply Ha.
Qed.

Lemma Inv_timers_empty s : Inv s -> pendingChunks s = [] -> timers s = [].
Proof.
  intros [[_ Hs] Ha _ _ _] He. apply Ha in He. now rewrite He in Hs.
Qed.

Lemma Inv_timer_chunks s t : Inv s -> In t (timers s) -> pendingChunks s <> [].
Proof.
  intros HI Hin He. rewrite (Inv_timers_empty s HI He) in Hin. exact Hin.
Qed.

Lemma Inv_bumpActivityTimer s : Inv s -> Inv (bumpActivityTimer s).
Proof.
  intros HI. destruct (pendingChunks s) as [|x r] eqn:E.
  - now rewrite bumpActivityTimer_empty.
  - destruct HI as [Hs Ha Hc Hp Hg].
    rewrite bumpActivityTimer_armed; [|exact Hs|rewrite E; discriminate].
    destruct Hs as [Hn _].
    constructor; unfold slot_ok, groups_ok; cbn.
    + split; [lia|]. split; [lia|]. split; [lia|].
      exists (clock s + INACTIVITY_MS). reflexivity.
    + rewrite E. split; discriminate.
    + exact Hc.
    + exact Hp.
    + exact Hg.
Qed.

Lemma Inv_sendMessage s : Inv s -> Inv (sendMessage s).
Proof.
  intros HI. destruct (trim (inputValue s)) as [|c q] eqn:E.
  - now rewrite sendMessage_blank.
  - assert (Hne : trim (inputValue s) <> []) by (rewrite E; discriminate).
    pose proof (trim_nonempty_clean _ Hne) as Hcl.
    rewrite sendMessage_chunk by exact Hne.
    destruct HI as [Hs Ha Hc Hp Hg].
    rewrite bumpActivityTimer_armed;
      [|exact Hs|cbn; now destruct (pendingChunks s)].
    destruct Hs as [Hn _].
    constructor; unfold slot_ok, groups_ok; cbn.
    + split; [lia|]. split; [lia|]. split; [lia|].
      exists (clock s + INACTIVITY_MS). reflexivity.
    + split; [discriminate|]. now destruct (pendingChunks s).
    + apply Forall_app. split; [exact Hc|]. constructor; [exact Hcl|constructor].
    + apply Forall_app. split; [exact Hp|]. constructor; [exact Hcl|constructor].
    + destruct Hg as (groups & Hg1 & Hg2 & Hg3). exists groups.
      rewrite Hg1, <- app_assoc. auto.
Qed.

(** The one scheduled callback always finds chunks to send. *)
Lemma fire_armed s h deadline :
  Inv s -> timers s = [(h, deadline)] ->
  fire (h, deadline) s
  = fetchSend (join space (pendingChunks s))
      (showTypingIndicator
         (setSending true
            (set_pendingTimer None
               (set_pendingChunks []
                  (set_clock (N.max (clock s) deadline)
                     (set_timers [] s)))))).
Proof.
  intros HI Ht.
  assert (Hne : pendingChunks s <> []).
  { apply (Inv_timer_chunks s (h, deadline) HI). rewrite Ht. now left. }
  unfold fire. cbn [fst snd].
  rewrite flushPendingChunks_clean; cbn;
    [|exact Hne|exact (inv_clean s HI)].
  unfold clearTimeout. rewrite Ht. cbn. rewrite N.eqb_refl. reflexivity.
Qed.

Lemma Inv_dispatch s :
  Inv s -> pendingChunks s <> [] -> forall time,
  Inv (fetchSend (join space (pendingChunks s))
         (showTypingIndicator
            (setSending true
               (set_pendingTimer None
                  (set_pendingChunks []
                     (set_clock time (set_timers [] s))))))).
Proof.
  intros [[Hn _] Ha Hc Hp Hg] Hne deadline.
  eapply Inv_core with
    (s := set_sent (sent s ++ [join space (pendingChunks s)])
            (set_pendingTimer None
               (set_pendingChunks []
                  (set_clock deadline (set_timers [] s))))).
  - unfold fetchSend, showTypingIndicator, setSending, scrollToBottom. cbn.
    now destruct (typingBubbleEl s).
  - constructor; unfold slot_ok, groups_ok; cbn.
    + split; [exact Hn|reflexivity].
    + tauto.
    + constructor.
    + exact Hp.
    + destruct Hg as (groups & Hg1 & Hg2 & Hg3).
      exists (groups ++ [pendingChunks s]).
      rewrite concat_app, map_app, Hg2. cbn. rewrite !app_nil_r.
      split; [exact Hg1|]. split; [reflexivity|].
      apply Forall_app. split; [exact Hg3|]. constructor; [exact Hne|constructor].
Qed.

Lemma Inv_set_clock s t : Inv s -> Inv (set_clock t s).
Proof. intros HI. now apply Inv_core with (s := s). Qed.

(** The three ways a wait can go. *)
Lemma wait_cases d s :
  Inv s ->
  (pendingChunks s = [] /\ wait d s = set_clock (clock s + d) s) \/
  (exists h deadline,
      pendingChunks s <> [] /\ timers s = [(h, deadline)] /\
      clock s + d < deadline /\ wait d s = set_clock (clock s + d) s) \/
  (exists h deadline,
      pendingChunks s <> [] /\ timers s = [(h, deadline)] /\
      deadline <= clock s + d /\
      wait d s
      = set_clock (clock s + d)
          (fetchSend (join space (pendingChunks s))
             (showTypingIndicator
                (setSending true
                   (set_pendingTimer None
                      (set_pendingChunks []
                         (set_clock (N.max (clock s) deadline)
                            (set_timers [] s)))))))).
Proof.
  intros HI. destruct (pendingChunks s) as [|x r] eqn:E.
  - left. split; [reflexivity|]. apply wait_idle. now apply Inv_timers_empty.
  - right.
    assert (Hne : pendingChunks s <> []) by (rewrite E; discriminate).
    destruct (Inv_neq_cons s HI Hne) as (h & dl & _ & Ht).
    destruct (N.lt_ge_cases (clock s + d) dl) as [Hlt|Hge].
    + left. exists h, dl. rewrite <- E. repeat split; try assumption.
      now apply wait_early with (h := h) (deadline := dl).
    + right. exists h, dl. rewrite <- E. repeat split; try assumption.
      rewrite (wait_due d s h dl Ht Hge).
      now rewrite (fire_armed s h dl HI Ht).
Qed.

Lemma Inv_wait d s : Inv s -> Inv (wait d s).
Proof.
  intros HI.
  destruct (wait_cases d s HI)
    as [[He ->] | [(h & dl & Hne & Ht & Hlt & ->) | (h & dl & Hne & Ht & Hge & ->)]].
  - now apply Inv_set_clock.
  - now apply Inv_set_clock.
  - now apply Inv_set_clock, Inv_dispatch.
Qed.

(** A callback that runs late is the one scheduled callback. *)
Lemma fire_handle_cases h s :
  Inv s ->
  fire_handle h s = s \/
  exists deadline,
    timers s = [(h, deadline)] /\ deadline <= clock s /\
    fire_handle h s = fire (h, deadline) s.
Proof.
  intros HI. unfold fire_handle.
  destruct (find _ (timers s)) as [[h' dl]|] eqn:E; [|now left].
  right. apply find_some in E. destruct E as [Hin E]. cbn [fst snd] in E.
  apply andb_true_iff in E. destruct E as [E1 E2].
  apply N.eqb_eq in E1. apply N.leb_le in E2. subst h'.
  pose proof (Inv_timer_chunks s _ HI Hin) as Hne.
  destruct (Inv_neq_cons s HI Hne) as (h0 & dl0 & _ & Ht).
  rewrite Ht in Hin. destruct Hin as [Hq|[]]. injection Hq as -> ->.
  exists dl. auto.
Qed.

Lemma Inv_fire_handle h s : Inv s -> Inv (fire_handle h s).
Proof.
  intros HI.
  destruct (fire_handle_cases h s HI) as [->|(dl & Ht & _ & ->)]; [exact HI|].
  rewrite (fire_armed s h dl HI Ht). apply Inv_dispatch; [exact HI|].
  apply (Inv_timer_chunks s (h, dl) HI). rewrite Ht. now left.
Qed.

Lemma Inv_step s e : Inv s -> Inv (step s e).
Proof.
  intros HI. destruct e; cbn [step].
  - now apply Inv_core with (s := s).
  - unfold onKeydown.
    destruct (JsString.eqb key (lit "Enter") && negb shiftKey).
    + now apply Inv_sendMessage, Inv_bumpActivityTimer.
    + now apply Inv_bumpActivityTimer.
  - unfold onClickSend. destruct (sendDisabled s); [exact HI|].
    now apply Inv_sendMessage.
  - now apply Inv_wait.
  - now apply Inv_set_clock.
  - now apply Inv_fire_handle.
  - eapply Inv_core; [apply core_flush_fetched|exact HI].
  - eapply Inv_core; [apply core_flush_parsed|exact HI].
  - eapply Inv_core; [apply core_loadHistory_fetched|exact HI].
  - eapply Inv_core; [apply core_loadHistory_parsed|exact HI].
Qed.

Lemma Inv_run evs : forall s, Inv s -> Inv (run evs s).
Proof.
  induction evs as [|e r IH]; intros s HI; [exact HI|].
  cbn. apply IH. now apply Inv_step.
Qed.

Lemma Inv_reachable s : reachable s -> Inv s.
Proof. intros [evs ->]. apply Inv_run, Inv_init. Qed.

Lemma run_app a b s : run (a ++ b) s = run b (run a s).
Proof. unfold run. apply fold_left_app. Qed.

End Invariant.

(** ** Bursts *)

Section Bursts.

Lemma beside_timer_bump s : beside_timer (bumpActivityTimer s) = beside_timer s.
Proof.
  unfold bumpActivityTimer, setTimeout, clearTimeout.
  destruct (pendingChunks s) eqn:E; [reflexivity|].
  destruct (pendingTimer s) as [h|]; [destruct (h =? 0)|];
    cbn; unfold beside_timer; cbn; rewrite E; reflexivity.
Qed.

(** A keystroke that does not commit re-arms the timer of a loaded buffer. *)
Lemma keystroke_armed s key shiftKey chunks base :
  Pending s chunks base -> committing key shiftKey = false ->
  Armed (step s (EvKeydown key shiftKey)) chunks base /\
  sendDisabled (step s (EvKeydown key shiftKey)) = sendDisabled s.
Proof.
  intros (HI & Hc & Hne & Hs) Hk. cbn [step]. unfold onKeydown.
  unfold committing in Hk. rewrite Hk.
  pose proof (Inv_bumpActivityTimer s HI) as HI'.
  pose proof (beside_timer_bump s) as Hb.
  unfold beside_timer in Hb. injection Hb as _ B2 _ _ B5 B6 _ _ B9 _ _ _.
  split; [split|exact B5].
  - split; [exact HI'|]. rewrite B2, B9. auto.
  - rewrite bumpActivityTimer_armed; [|exact (inv_slot s HI)|congruence].
    cbn. eauto.
Qed.

(** What [sendMessage] leaves behind when the field holds text. *)
Lemma sendMessage_armed s :
  Inv s -> trim (inputValue s) <> [] ->
  Armed (sendMessage s) (pendingChunks s ++ [trim (inputValue s)]) (sent s) /\
  inflight (sendMessage s) = inflight s /\
  clock (sendMessage s) = clock s /\
  nextRequest (sendMessage s) = nextRequest s /\
  sendDisabled (sendMessage s) = sendDisabled s /\
  pendingTimer (sendMessage s) <> None.
Proof.
  intros HI Ht.
  pose proof (Inv_sendMessage s HI) as HI2.
  assert (Heq : sendMessage s
                = set_pendingTimer (Some (nextHandle s))
                    (set_nextHandle (nextHandle s + 1)
                       (set_timers [(nextHandle s, clock s + INACTIVITY_MS)]
                          (set_pushed (pushed s ++ [trim (inputValue s)])
                             (set_pendingChunks
                                (pendingChunks s ++ [trim (inputValue s)])
                                (set_inputValue []
                                   (scrollToBottom
                                      (set_messagesEl
                                         (messagesEl s ++
                                          [Bubble (JStr (lit "user"))
                                             (JStr (trim (inputValue s)))
                                             (JStr (localTime (clock s)))])
                                         s)))))))).
  { rewrite sendMessage_chunk by exact Ht.
    rewrite bumpActivityTimer_armed;
      [|exact (inv_slot s HI)|cbn; now destruct (pendingChunks s)].
    reflexivity. }
  unfold Armed, Pending.
  split; [split; [split; [exact HI2|] |] |]; rewrite Heq; cbn.
  - repeat split. now destruct (pendingChunks s).
  - eauto.
  - repeat split. discriminate.
Qed.

(** A commit of text that is not blank appends its trimmed text and arms
    the timer, whatever the buffer held. *)
Lemma commit_armed s via text :
  Inv s -> trim text <> [] -> button_free s [Commit via text] ->
  let s' := run (commit_events via text) s in
  Armed s' (pendingChunks s ++ [trim text]) (sent s) /\
  inflight s' = inflight s /\
  clock s' = clock s /\
  nextRequest s' = nextRequest s /\
  sendDisabled s' = sendDisabled s /\
  pendingTimer s' <> None.
Proof.
  intros HI Ht Hb s'. subst s'.
  set (s0 := set_inputValue text s).
  assert (HI0 : Inv s0) by (now apply Inv_core with (s := s)).
  destruct via; cbn [run commit_events fold_left step].
  - unfold onKeydown.
    change (JsString.eqb (lit "Enter") (lit "Enter") && negb false) with true.
    cbn iota. fold s0.
    pose proof (Inv_bumpActivityTimer s0 HI0) as HI1.
    pose proof (beside_timer_bump s0) as B.
    unfold beside_timer in B. injection B as B1 B2 _ _ B5 B6 B7 B8 B9 _ _ _.
    set (s1 := bumpActivityTimer s0) in *.
    assert (Hin : trim (inputValue s1) <> []) by (now rewrite B1).
    destruct (sendMessage_armed s1 HI1 Hin) as (HA & H1 & H2 & H3 & H4 & H5).
    rewrite B1, B2, B9 in HA.
    rewrite H1, H2, H3, H4, B5, B6, B7, B8.
    split; [exact HA|]. repeat split. exact H5.
  - unfold onClickSend. fold s0.
    assert (Hd : sendDisabled s0 = false) by (now apply Hb).
    rewrite Hd.
    apply (sendMessage_armed s0 HI0 Ht).
Qed.

Lemma commit_armed_enter s text :
  Inv s -> trim text <> [] ->
  let s' := run (commit text) s in
  Armed s' (pendingChunks s ++ [trim text]) (sent s) /\
  inflight s' = inflight s /\
  clock s' = clock s /\
  nextRequest s' = nextRequest s /\
  sendDisabled s' = sendDisabled s /\
  pendingTimer s' <> None.
Proof.
  intros HI Ht. apply (commit_armed s ByEnter text HI Ht).
  intros H. discriminate.
Qed.

Lemma signal_armed s g chunks base :
  Pending s chunks base -> signal_ok g -> button_free s [g] ->
  Armed (run (signal_events g) s) (chunks ++ fragment g) base /\
  sendDisabled (run (signal_events g) s) = sendDisabled s.
Proof.
  intros HP Hg Hb. destruct g as [via text|key shiftKey]; cbn [signal_events].
  - destruct HP as (HI & Hc & Hne & Hs).
    destruct (commit_armed s via text HI Hg Hb) as (HA & _ & _ & _ & Hd & _).
    rewrite Hc, Hs in HA. auto.
  - cbn [fragment]. rewrite app_nil_r. now apply keystroke_armed.
Qed.

(** Less than a quiet period after the last signal nothing happens. *)
Lemma wait_armed_early s d chunks base :
  Armed s chunks base -> d < INACTIVITY_MS ->
  Pending (step s (EvWait d)) chunks base /\
  sendDisabled (step s (EvWait d)) = sendDisabled s.
Proof.
  intros ((HI & Hc & Hne & Hs) & h & Ht) Hd. cbn [step].
  rewrite (wait_early d s h _ Ht) by lia.
  split; [|reflexivity].
  split; [|cbn; auto].
  now apply Inv_set_clock.
Qed.

(** A quiet period after the last signal the buffer is sent, once. *)
Lemma wait_armed_due s d chunks base :
  Armed s chunks base -> INACTIVITY_MS <= d ->
  Inv (step s (EvWait d)) /\
  sent (step s (EvWait d)) = base ++ [join space chunks] /\
  pendingChunks (step s (EvWait d)) = [] /\
  inflight (step s (EvWait d))
  = inflight s ++ [mkRequest (nextRequest s) (join space chunks) AwaitFetch] /\
  sendDisabled (step s (EvWait d)) = true.
Proof.
  intros ((HI & Hc & Hne & Hs) & h & Ht) Hd.
  split; [now apply Inv_step|]. cbn [step].
  rewrite (wait_due d s h _ Ht) by lia.
  rewrite (fire_armed s h _ HI Ht).
  unfold fetchSend, showTypingIndicator, setSending, scrollToBottom. cbn.
  destruct (typingBubbleEl s); cbn; rewrite Hc, Hs; auto.
Qed.

Lemma button_free_cons s g gs :
  button_free s (g :: gs) -> button_free s [g] /\ button_free s gs.
Proof.
  unfold button_free. cbn [existsb]. intros H. split; intros E; apply H.
  - rewrite orb_false_r in E. now rewrite E.
  - rewrite E. apply orb_true_r.
Qed.

Lemma burst_armed b : forall s chunks base,
  Armed s chunks base -> quick b -> button_free s (map snd b) ->
  Armed (run (burst_events b) s) (chunks ++ fragments b) base.
Proof.
  induction b as [|[gap g] b IH]; intros s chunks base HA Hq Hb.
  - cbn. now rewrite app_nil_r.
  - inversion Hq as [|? ? [Hgap Hg] Hq']; subst. cbn [fst snd] in *.
    cbn [map snd] in Hb. destruct (button_free_cons _ _ _ Hb) as [Hb1 Hb2].
    change (burst_events ((gap, g) :: b))
      with ((EvWait gap :: signal_events g) ++ burst_events b).
    change (fragments ((gap, g) :: b)) with (fragment g ++ fragments b).
    rewrite run_app, app_assoc.
    change (run (EvWait gap :: signal_events g) s)
      with (run (signal_events g) (step s (EvWait gap))).
    destruct (wait_armed_early s gap chunks base HA Hgap) as [HP Hd1].
    assert (Hb1' : button_free (step s (EvWait gap)) [g]).
    { intros E. rewrite Hd1. now apply Hb1. }
    destruct (signal_armed _ g chunks base HP Hg Hb1') as [HA' Hd2].
    apply IH; [exact HA'|exact Hq'|].
    intros E. rewrite Hd2, Hd1. now apply Hb2.
Qed.

(** The whole of a burst: a commit, quick signals, then silence. *)
Lemma burst_flush s via text b d :
  Inv s -> pendingChunks s = [] -> trim text <> [] -> quick b ->
  button_free s (Commit via text :: map snd b) ->
  INACTIVITY_MS <= d ->
  let quiet := run (commit_events via text ++ burst_events b) s in
  sent quiet = sent s /\
  Inv (step quiet (EvWait d)) /\
  sent (step quiet (EvWait d))
  = sent s ++ [join space (trim text :: fragments b)] /\
  pendingChunks (step quiet (EvWait d)) = [].
Proof.
  intros HI He Ht Hq Hb Hd quiet.
  destruct (button_free_cons _ _ _ Hb) as [Hb1 Hb2].
  destruct (commit_armed s via text HI Ht Hb1) as (HA & _ & _ & _ & Hds & _).
  rewrite He in HA. cbn [app] in HA.
  assert (Hb2' : button_free (run (commit_events via text) s) (map snd b)).
  { intros E. rewrite Hds. now apply Hb2. }
  pose proof (burst_armed b _ _ _ HA Hq Hb2') as HB.
  rewrite <- run_app in HB. fold quiet in HB.
  destruct (wait_armed_due quiet d _ _ HB Hd) as (H1 & H2 & H3 & _).
  destruct HB as ((_ & _ & _ & Hs) & _).
  auto.
Qed.

End Bursts.

(** ** The message list and the send button *)

Section Display.

Lemma createMessageBubble_row msg r :
  createMessageBubble msg = Some r -> is_typing r = false.
Proof.
  unfold createMessageBubble. intros H.
  repeat match type of H with
         | context [match ?x with _ => _ end] => destruct x eqn:?
         | context [if ?x then _ else _] => destruct x eqn:?
         end; inversion H; reflexivity.
Qed.

Lemma appendMessage_rows msg s s' :
  appendMessage msg s = Some s' ->
  beside_messages s' = beside_messages s /\
  exists rows, messagesEl s' = messagesEl s ++ rows /\ no_typing rows.
Proof.
  unfold appendMessage. intros H.
  repeat match type of H with
         | context [match ?x with _ => _ end] => destruct x eqn:?
         | context [if ?x then _ else _] => destruct x eqn:?
         end; inversion H; subst; (split; [reflexivity|]);
    try (exists []; rewrite app_nil_r; split; [reflexivity|constructor]).
  eexists. split; [reflexivity|].
  constructor; [|constructor].
  eapply createMessageBubble_row; eassumption.
Qed.

Lemma forEach_rows items : forall s,
  beside_messages (fst (forEach_appendMessage items s)) = beside_messages s /\
  exists rows,
    messagesEl (fst (forEach_appendMessage items s)) = messagesEl s ++ rows /\
    no_typing rows.
Proof.
  induction items as [|m r IH]; intros s; cbn [forEach_appendMessage].
  - split; [reflexivity|]. exists []. rewrite app_nil_r.
    split; [reflexivity|constructor].
  - destruct (appendMessage m s) as [s1|] eqn:E.
    + destruct (appendMessage_rows m s s1 E) as (B1 & rows1 & M1 & T1).
      destruct (IH s1) as (B2 & rows2 & M2 & T2).
      split; [now rewrite B2|].
      exists (rows1 ++ rows2). rewrite M2, M1, app_assoc.
      split; [reflexivity|]. now apply Forall_app.
    + split; [reflexivity|]. exists []. rewrite app_nil_r.
      split; [reflexivity|constructor].
Qed.

Lemma filter_no_typing rows :
  no_typing rows -> filter (fun r => negb (is_typing r)) rows = rows.
Proof.
  induction 1 as [|r rows Hr _ IH]; [reflexivity|].
  cbn. rewrite Hr, IH. reflexivity.
Qed.

Lemma no_typing_filter rows :
  no_typing (filter (fun r => negb (is_typing r)) rows).
Proof.
  induction rows as [|r rows IH]; [constructor|].
  cbn. destruct (is_typing r) eqn:E; cbn; [exact IH|].
  constructor; assumption.
Qed.

Lemma bubbles_hideTypingIndicator s : bubbles (hideTypingIndicator s) = bubbles s.
Proof.
  unfold hideTypingIndicator, bubbles.
  destruct (typingBubbleEl s); [|reflexivity]. cbn.
  apply filter_no_typing, no_typing_filter.
Qed.

Lemma hideTypingIndicator_hidden s :
  typing_ok s ->
  typingBubbleEl (hideTypingIndicator s) = false /\
  no_typing (messagesEl (hideTypingIndicator s)).
Proof.
  intros H. unfold hideTypingIndicator.
  destruct (typingBubbleEl s) eqn:E; cbn.
  - split; [reflexivity|apply no_typing_filter].
  - split; [exact E|now apply H].
Qed.

Lemma typing_ok_hide s : typing_ok s -> typing_ok (hideTypingIndicator s).
Proof.
  intros H _. now apply hideTypingIndicator_hidden.
Qed.

Lemma typing_ok_append s s' rows :
  typing_ok s -> typingBubbleEl s' = typingBubbleEl s ->
  messagesEl s' = messagesEl s ++ rows -> no_typing rows -> typing_ok s'.
Proof.
  unfold typing_ok. intros H E M T Hf. rewrite M.
  apply Forall_app. split; [apply H; congruence|exact T].
Qed.

Lemma typing_ok_appendMessage msg s s' :
  appendMessage msg s = Some s' -> typing_ok s -> typing_ok s'.
Proof.
  intros E H. destruct (appendMessage_rows msg s s' E) as (B & rows & M & T).
  unfold beside_messages in B. injection B as _ _ _ B4 _ _ _ _ _ _ _ _ _ _.
  now apply typing_ok_append with (s := s) (rows := rows).
Qed.

Lemma typing_ok_flush s : typing_ok s -> typing_ok (flushPendingChunks s).
Proof.
  unfold flushPendingChunks, fetchSend, showTypingIndicator, setSending,
    scrollToBottom, typing_ok.
  intros H.
  destruct (pendingChunks s); [exact H|].
  destruct (trim (join space (j :: l))); cbn; [exact H|].
  destruct (typingBubbleEl s) eqn:E; cbn; [congruence|discriminate].
Qed.

Lemma typing_ok_run_timers fuel limit : forall s,
  typing_ok s -> typing_ok (run_timers fuel limit s).
Proof.
  induction fuel as [|n IH]; intros s H; cbn [run_timers]; [exact H|].
  destruct (next_due limit (timers s)) as [t|]; [|exact H].
  apply IH. unfold fire. apply typing_ok_flush. exact H.
Qed.

Lemma typing_ok_sendMessage s : typing_ok s -> typing_ok (sendMessage s).
Proof.
  intros H. unfold sendMessage.
  destruct (trim (inputValue s)) as [|c q]; [exact H|].
  destruct (appendMessage _ s) as [s1|] eqn:E; [|exact H].
  pose proof (typing_ok_appendMessage _ s s1 E H) as H1.
  set (s3 := set_pushed _ _).
  pose proof (beside_timer_bump s3) as B. unfold beside_timer in B.
  injection B as _ _ B3 B4 _ _ _ _ _ _ _ _.
  unfold typing_ok in *. rewrite B3, B4. exact H1.
Qed.

Lemma typing_ok_bump s : typing_ok s -> typing_ok (bumpActivityTimer s).
Proof.
  intros H. pose proof (beside_timer_bump s) as B. unfold beside_timer in B.
  injection B as _ _ B3 B4 _ _ _ _ _ _ _ _.
  unfold typing_ok in *. now rewrite B3, B4.
Qed.

Lemma typing_ok_flush_catch s : typing_ok s -> typing_ok (flush_catch s).
Proof. intros H. unfold flush_catch. apply (typing_ok_hide s H). Qed.

Lemma typing_ok_step s e : typing_ok s -> typing_ok (step s e).
Proof.
  intros H. destruct e; cbn [step].
  - exact H.
  - unfold onKeydown.
    destruct (JsString.eqb key (lit "Enter") && negb shiftKey).
    + now apply typing_ok_sendMessage, typing_ok_bump.
    + now apply typing_ok_bump.
  - unfold onClickSend. destruct (sendDisabled s); [exact H|].
    now apply typing_ok_sendMessage.
  - unfold wait. now apply (typing_ok_run_timers _ _ s).
  - exact H.
  - unfold fire_handle. destruct (find _ (timers s)); [|exact H].
    unfold fire. now apply typing_ok_flush.
  - unfold flush_fetched.
    destruct (find_request r AwaitFetch s); [|exact H].
    destruct res as [|ok]; [now apply typing_ok_flush_catch|].
    destruct ok; cbn [negb]; now apply (typing_ok_hide s).
  - unfold flush_parsed.
    destruct (find_request r AwaitJson s); [|exact H].
    assert (H0 : typing_ok (drop_request r s)) by exact H.
    destruct body as [|data]; [now apply typing_ok_flush_catch|].
    destruct (reply_present data) as [[|]|];
      [|exact H|now apply typing_ok_flush_catch].
    destruct (get data (lit "bot")) as [bot|];
      [|now apply typing_ok_flush_catch].
    destruct (appendMessage bot (drop_request r s)) as [s1|] eqn:E;
      [|now apply typing_ok_flush_catch].
    apply (typing_ok_appendMessage bot (drop_request r s) s1 E). exact H.
  - unfold loadHistory_fetched.
    destruct (history s); try exact H. destruct res; exact H.
  - unfold loadHistory_parsed.
    destruct (history s); try exact H.
    destruct body as [|data]; [exact H|].
    assert (H0 : forall s0, messagesEl s0 = [] -> typing_ok s0).
    { intros s0 E _. rewrite E. constructor. }
    destruct data; try (apply H0; reflexivity).
    destruct (forEach_rows items
                (set_messagesEl [] (set_history HistoryDone s)))
      as (B & rows & M & T).
    destruct (forEach_appendMessage items _) as [s2 fin]. cbn [fst] in *.
    assert (H2 : typing_ok s2).
    { intros _. rewrite M. exact T. }
    destruct fin; exact H2.
Qed.

Lemma typing_ok_reachable s : reachable s -> typing_ok s.
Proof.
  intros [evs ->]. unfold run.
  assert (H : typing_ok init) by (intros _; constructor).
  revert H. generalize init. induction evs as [|e r IH]; intros s H; [exact H|].
  cbn. apply IH. now apply typing_ok_step.
Qed.

(** At most one indicator row is attached, the one [typingBubbleEl] names. *)
Lemma filter_typing_no_typing rows :
  no_typing rows -> filter is_typing rows = [].
Proof.
  induction 1 as [|r rows Hr _ IH]; [reflexivity|]. cbn. now rewrite Hr.
Qed.

Lemma indicators_append s s' rows :
  messagesEl s' = messagesEl s ++ rows -> no_typing rows ->
  indicators s' = indicators s.
Proof.
  intros M T. unfold indicators.
  now rewrite M, filter_app, (filter_typing_no_typing rows T), app_nil_r.
Qed.

Lemma indicators_appendMessage msg s s' :
  appendMessage msg s = Some s' -> indicators s' = indicators s.
Proof.
  intros E. destruct (appendMessage_rows msg s s' E) as (_ & rows & M & T).
  now apply indicators_append with (rows := rows).
Qed.

Lemma indicators_hide s : (indicators (hideTypingIndicator s) <= indicators s)%nat.
Proof.
  unfold hideTypingIndicator, indicators.
  destruct (typingBubbleEl s); cbn; [|lia].
  rewrite (filter_typing_no_typing _ (no_typing_filter (messagesEl s))).
  cbn. lia.
Qed.

Lemma indicators_flush s :
  typing_ok s -> (indicators s <= 1)%nat ->
  (indicators (flushPendingChunks s) <= 1)%nat.
Proof.
  unfold flushPendingChunks, fetchSend, showTypingIndicator, setSending,
    scrollToBottom, typing_ok, indicators.
  intros HT H.
  destruct (pendingChunks s); [exact H|].
  destruct (trim (join space (j :: l))); cbn; [exact H|].
  destruct (typingBubbleEl s) eqn:E; cbn; [exact H|].
  rewrite filter_app, (filter_typing_no_typing _ (HT eq_refl)). cbn. lia.
Qed.

Lemma indicators_run_timers fuel limit : forall s,
  typing_ok s -> (indicators s <= 1)%nat ->
  (indicators (run_timers fuel limit s) <= 1)%nat.
Proof.
  induction fuel as [|n IH]; intros s HT H; cbn [run_timers]; [exact H|].
  destruct (next_due limit (timers s)) as [t|]; [|exact H].
  unfold fire. apply IH; [now apply typing_ok_flush|now apply indicators_flush].
Qed.

Lemma indicators_sendMessage s : indicators (sendMessage s) = indicators s.
Proof.
  unfold sendMessage.
  destruct (trim (inputValue s)) as [|c q]; [reflexivity|].
  destruct (appendMessage _ s) as [s1|] eqn:E; [|reflexivity].
  set (s3 := set_pushed _ _).
  pose proof (beside_timer_bump s3) as B. unfold beside_timer in B.
  injection B as _ _ _ B4 _ _ _ _ _ _ _ _.
  unfold indicators at 1. rewrite B4.
  apply (indicators_appendMessage _ s s1 E).
Qed.

Lemma indicators_bump s : indicators (bumpActivityTimer s) = indicators s.
Proof.
  pose proof (beside_timer_bump s) as B. unfold beside_timer in B.
  injection B as _ _ _ B4 _ _ _ _ _ _ _ _.
  unfold indicators. now rewrite B4.
Qed.

Lemma indicators_step s e :
  typing_ok s -> (indicators s <= 1)%nat -> (indicators (step s e) <= 1)%nat.
Proof.
  intros HT H. destruct e; cbn [step].
  - exact H.
  - unfold onKeydown.
    destruct (JsString.eqb key (lit "Enter") && negb shiftKey);
      now rewrite ?indicators_sendMessage, indicators_bump.
  - unfold onClickSend. destruct (sendDisabled s); [exact H|].
    now rewrite indicators_sendMessage.
  - unfold wait. now apply (indicators_run_timers _ _ s).
  - exact H.
  - unfold fire_handle. destruct (find _ (timers s)); [|exact H].
    unfold fire. now apply indicators_flush.
  - pose proof (indicators_hide s) as Hh.
    pose proof (indicators_hide (drop_request r s)) as Hd.
    unfold flush_fetched, flush_catch.
    destruct (find_request r AwaitFetch s); [|exact H].
    destruct res as [|[|]]; cbn [negb];
      unfold indicators in *; cbn in *; lia.
  - pose proof (indicators_hide (drop_request r s)) as Hd.
    assert (Hc : (indicators (flush_catch (drop_request r s)) <= 1)%nat).
    { unfold flush_catch, indicators in *. cbn in *. lia. }
    unfold flush_parsed.
    destruct (find_request r AwaitJson s); [|exact H].
    destruct body as [|data]; [exact Hc|].
    destruct (reply_present data) as [[|]|]; [|exact H|exact Hc].
    destruct (get data (lit "bot")) as [bot|]; [|exact Hc].
    destruct (appendMessage bot (drop_request r s)) as [s1|] eqn:E;
      [|exact Hc].
    apply indicators_appendMessage in E.
    unfold indicators in *. cbn in *. lia.
  - unfold loadHistory_fetched.
    destruct (history s); try exact H. destruct res; exact H.
  - unfold loadHistory_parsed.
    destruct (history s); try exact H.
    destruct body as [|data]; [exact H|].
    destruct data; try (cbn; lia).
    destruct (forEach_rows items
                (set_messagesEl [] (set_history HistoryDone s)))
      as (_ & rows & M & T).
    destruct (forEach_appendMessage items _) as [s2 fin]. cbn [fst] in *.
    assert (H2 : indicators s2 = 0%nat).
    { unfold indicators. rewrite M. cbn.
      now rewrite (filter_typing_no_typing rows T). }
    destruct fin; unfold indicators, scrollToBottom in *; cbn in *; lia.
Qed.

Lemma indicator_unique s : reachable s -> (indicators s <= 1)%nat.
Proof.
  intros [evs ->]. unfold run.
  assert (H : typing_ok init /\ (indicators init <= 1)%nat).
  { split; [intros _; constructor|cbn; lia]. }
  revert H. generalize init.
  induction evs as [|e r IH]; intros s [HT H]; [exact H|].
  cbn. apply IH. split; [now apply typing_ok_step|now apply indicators_step].
Qed.

(** Nothing but a completion re-enables the send button. *)
Lemma sendDisabled_flush s :
  sendDisabled s = true -> sendDisabled (flushPendingChunks s) = true.
Proof.
  unfold flushPendingChunks, fetchSend, showTypingIndicator, setSending,
    scrollToBottom.
  intros H. destruct (pendingChunks s); [exact H|].
  destruct (trim (join space (j :: l))); cbn; [exact H|].
  destruct (typingBubbleEl s); reflexivity.
Qed.

Lemma sendDisabled_run_timers fuel limit : forall s,
  sendDisabled s = true -> sendDisabled (run_timers fuel limit s) = true.
Proof.
  induction fuel as [|n IH]; intros s H; cbn [run_timers]; [exact H|].
  destruct (next_due limit (timers s)) as [t|]; [|exact H].
  apply IH. unfold fire. apply sendDisabled_flush. exact H.
Qed.

Lemma sendDisabled_sendMessage s :
  sendDisabled (sendMessage s) = sendDisabled s.
Proof.
  unfold sendMessage.
  destruct (trim (inputValue s)) as [|c q]; [reflexivity|].
  destruct (appendMessage _ s) as [s1|] eqn:E; [|reflexivity].
  destruct (appendMessage_rows _ s s1 E) as (B & _).
  unfold beside_messages in B. injection B as _ _ _ _ B5 _ _ _ _ _ _ _ _ _.
  set (s3 := set_pushed _ _).
  pose proof (beside_timer_bump s3) as B'. unfold beside_timer in B'.
  injection B' as _ _ _ _ B5' _ _ _ _ _ _ _.
  rewrite B5'. exact B5.
Qed.

Lemma sendDisabled_bump s :
  sendDisabled (bumpActivityTimer s) = sendDisabled s.
Proof.
  pose proof (beside_timer_bump s) as B. unfold beside_timer in B.
  now injection B as _ _ _ _ B5 _ _ _ _ _ _ _.
Qed.

Lemma sendDisabled_hide s :
  sendDisabled (hideTypingIndicator s) = sendDisabled s.
Proof. unfold hideTypingIndicator. now destruct (typingBubbleEl s). Qed.

Lemma sendDisabled_loadHistory_parsed body s :
  sendDisabled (loadHistory_parsed body s) = sendDisabled s.
Proof.
  unfold loadHistory_parsed.
  destruct (history s); try reflexivity.
  destruct body as [|data]; [reflexivity|].
  destruct data; try reflexivity.
  destruct (forEach_rows items
              (set_messagesEl [] (set_history HistoryDone s))) as (B & _).
  destruct (forEach_appendMessage items _) as [s2 fin]. cbn [fst] in B.
  unfold beside_messages in B. injection B as _ _ _ _ B5 _ _ _ _ _ _ _ _ _.
  destruct fin; exact B5.
Qed.

End Display.

(** * The claims *)

Section QuietPeriod.

(** C1.  Start from any reachable state with an empty buffer.  After a
    commit of text that is not blank (by Enter, or by the send button while
    it is enabled), followed by any number of further commits and
    keystrokes each coming strictly less than [INACTIVITY_MS] after the
    previous signal, nothing has been sent yet; once a quiet period of at
    least [INACTIVITY_MS] has passed exactly one payload is sent, the
    trimmed fragments joined by single spaces in commit order. *)
Theorem merged_payload_after_quiet_period s via text b d :
  reachable s -> pendingChunks s = [] ->
  trim text <> [] -> quick b ->
  button_free s (Commit via text :: map snd b) ->
  INACTIVITY_MS <= d ->
  let quiet := run (commit_events via text ++ burst_events b) s in
  sent quiet = sent s /\
  sent (step quiet (EvWait d))
  = sent s ++ [join space (trim text :: fragments b)] /\
  pendingChunks (step quiet (EvWait d)) = [].
Proof.
  intros Hr He Ht Hq Hb Hd quiet.
  destruct (burst_flush s via text b d (Inv_reachable s Hr) He Ht Hq Hb Hd)
    as (H1 & _ & H2 & H3).
  auto.
Qed.

Lemma reachable_init : reachable init.
Proof. now exists []. Defined.

(** Commit "hi", wait 1 s, commit "there", wait 4 s: one send, "hi there". *)
Lemma merged_payload_hi_there :
  sent (run (commit (lit "hi") ++ [EvWait 1000] ++ commit (lit "there")
             ++ [EvWait 4000]) init)
  = [lit "hi there"].
Proof.
  assert (H := merged_payload_after_quiet_period init ByEnter (lit "hi")
                 [(1000, Commit ByEnter (lit "there"))] 4000
                 reachable_init eq_refl).
  vm_compute in H. vm_compute.
  apply H.
  - discriminate.
  - constructor; [|constructor]. split; [reflexivity|discriminate].
  - discriminate.
  - discriminate.
Defined.

(** C2.  From any reachable state with an empty buffer, two commits of text
    that is not blank, each followed by a pause of at least
    [INACTIVITY_MS], are sent as two payloads: the first pause sends the
    first fragment alone, the second pause the second fragment alone. *)
Theorem separate_payloads_after_pause s a b d1 d2 :
  reachable s -> pendingChunks s = [] ->
  trim a <> [] -> trim b <> [] ->
  INACTIVITY_MS <= d1 -> INACTIVITY_MS <= d2 ->
  sent (run (commit a ++ [EvWait d1]) s) = sent s ++ [trim a] /\
  sent (run (commit a ++ [EvWait d1] ++ commit b ++ [EvWait d2]) s)
  = sent s ++ [trim a; trim b].
Proof.
  intros Hr He Ha Hb Hd1 Hd2.
  assert (Hfree : forall s0 t,
             button_free s0 (Commit ByEnter t :: map snd (@nil (N * signal))))
    by (intros s0 t E; discriminate).
  destruct (burst_flush s ByEnter a [] d1 (Inv_reachable s Hr) He Ha
              (Forall_nil _) (Hfree _ _) Hd1) as (_ & HI1 & Hs1 & He1).
  change (commit_events ByEnter a) with (commit a) in *.
  cbn [burst_events flat_map fragments] in *. rewrite app_nil_r in *.
  cbn [join] in Hs1.
  assert (E1 : run (commit a ++ [EvWait d1]) s
               = step (run (commit a) s) (EvWait d1)).
  { rewrite run_app. reflexivity. }
  split; [now rewrite E1|].
  destruct (burst_flush _ ByEnter b [] d2 HI1 He1 Hb (Forall_nil _)
              (Hfree _ _) Hd2) as (_ & _ & Hs2 & _).
  change (commit_events ByEnter b) with (commit b) in *.
  cbn [burst_events flat_map fragments] in *. rewrite app_nil_r in *.
  cbn [join] in Hs2.
  rewrite app_assoc, run_app, E1, run_app. cbn [run fold_left] in *.
  rewrite Hs2, Hs1, <- app_assoc. reflexivity.
Qed.

(** Commit "a", wait 5 s, commit "b", wait 5 s: two sends, "a" then "b". *)
Lemma separate_payloads_a_b :
  sent (run (commit (lit "a") ++ [EvWait 5000] ++ commit (lit "b")
             ++ [EvWait 5000]) init)
  = [lit "a"; lit "b"].
Proof.
  assert (H := separate_payloads_after_pause init (lit "a") (lit "b")
                 5000 5000 reachable_init eq_refl).
  vm_compute in H. vm_compute.
  apply H; discriminate.
Defined.

End QuietPeriod.

Section BufferAndTimer.

Lemma reachable_a_sent :
  reachable (run (commit (lit "a") ++ [EvWait 4000]) init).
Proof. now exists (commit (lit "a") ++ [EvWait 4000]). Defined.

Lemma reachable_a_sent_b_pending :
  reachable (run (commit (lit "a") ++ [EvWait 4000] ++ commit (lit "b")) init).
Proof.
  now exists (commit (lit "a") ++ [EvWait 4000] ++ commit (lit "b")).
Defined.

(** C3.  In every reachable state: (1) a flush of a loaded buffer issues its
    request from a state in which the buffer and the timer handle are
    already cleared; (2) the payloads sent so far are the space-joins of
    consecutive, non-empty groups of the chunks committed, and the chunks
    not in any group are exactly the buffer, so every chunk goes into one
    payload and no more; (3) a commit made while requests are in flight
    leaves them untouched, starts a buffer and a timer of its own, and a
    quiet period later is sent as a request of its own. *)
Theorem fragments_consumed_once s :
  reachable s ->
  (pendingChunks s <> [] ->
   flushPendingChunks s
   = fetchSend (join space (pendingChunks s))
       (showTypingIndicator
          (setSending true
             (set_pendingTimer None (set_pendingChunks [] s))))) /\
  (exists groups,
      pushed s = concat groups ++ pendingChunks s /\
      sent s = map (join space) groups /\
      Forall (fun g => g <> []) groups) /\
  (forall text d,
      pendingChunks s = [] -> trim text <> [] -> INACTIVITY_MS <= d ->
      let s1 := run (commit text) s in
      pendingChunks s1 = [trim text] /\
      (exists h, pendingTimer s1 = Some h /\
                 timers s1 = [(h, clock s + INACTIVITY_MS)]) /\
      inflight s1 = inflight s /\
      sent s1 = sent s /\
      sent (step s1 (EvWait d)) = sent s ++ [trim text] /\
      inflight (step s1 (EvWait d))
      = inflight s ++ [mkRequest (nextRequest s) (trim text) AwaitFetch]).
Proof.
  intros Hr. pose proof (Inv_reachable s Hr) as HI.
  split; [|split].
  - intros Hne. apply flushPendingChunks_clean; [exact Hne|].
    exact (inv_clean s HI).
  - exact (inv_groups s HI).
  - intros text d He Ht Hd s1.
    destruct (commit_armed_enter s text HI Ht) as (HA & Hi & Hc & Hq & _ & Hp).
    fold s1 in HA, Hi, Hc, Hq, Hp. rewrite He in HA. cbn [app] in HA.
    destruct (wait_armed_due s1 d _ _ HA Hd) as (_ & Hs & _ & Hf & _).
    destruct HA as ((HI1 & Hch & Hne & Hse) & h & Htm).
    rewrite Hc in Htm.
    repeat split; try assumption.
    + destruct (Inv_neq_cons s1 HI1) as (h' & dl & Hpt & Htm').
      { rewrite Hch. discriminate. }
      exists h'. split; [exact Hpt|]. rewrite Htm' in Htm.
      injection Htm as -> ->. exact Htm'.
    + rewrite Hf, Hi, Hq. reflexivity.
Qed.

(** A commit of "b" while the request for "a" is in flight. *)
Lemma fragments_consumed_once_overlap :
  let s := run (commit (lit "a") ++ [EvWait 4000]) init in
  let s1 := run (commit (lit "b")) s in
  inflight s = [mkRequest 0 (lit "a") AwaitFetch] /\
  pendingChunks s1 = [lit "b"] /\
  sent (step s1 (EvWait 4000)) = [lit "a"; lit "b"] /\
  inflight (step s1 (EvWait 4000))
  = [mkRequest 0 (lit "a") AwaitFetch; mkRequest 1 (lit "b") AwaitFetch].
Proof.
  destruct (fragments_consumed_once _ reachable_a_sent) as (_ & _ & H).
  specialize (H (lit "b") 4000).
  vm_compute in H. vm_compute.
  destruct H as (H1 & _ & _ & _ & H5 & H6); try discriminate; [reflexivity|].
  split; [reflexivity|split; [exact H1|split; [exact H5|exact H6]]].
Defined.

(** C4, as the code has it.  The callback does not consult the send state:
    in every reachable state, also one with a request in flight and the
    send button disabled, a timer that fires sends the joined buffer as a
    new request.  What clearing the buffer before the request rules out is
    a second send of the same chunks: a flush run again right after finds
    the buffer empty and changes nothing. *)
Theorem flush_ignores_send_state s t :
  reachable s -> In t (timers s) ->
  sent (fire t s) = sent s ++ [join space (pendingChunks s)] /\
  inflight (fire t s)
  = inflight s
    ++ [mkRequest (nextRequest s) (join space (pendingChunks s)) AwaitFetch] /\
  sendDisabled (fire t s) = true /\
  flushPendingChunks (fire t s) = fire t s.
Proof.
  intros Hr Hin. pose proof (Inv_reachable s Hr) as HI.
  pose proof (Inv_timer_chunks s t HI Hin) as Hne.
  destruct (Inv_neq_cons s HI Hne) as (h & dl & _ & Ht).
  rewrite Ht in Hin. destruct Hin as [<-|[]].
  rewrite (fire_armed s h dl HI Ht).
  unfold flushPendingChunks, fetchSend, showTypingIndicator, setSending,
    scrollToBottom.
  cbn. destruct (typingBubbleEl s); cbn; repeat split; reflexivity.
Qed.

(** The request for "a" is in flight and the button disabled when the timer
    of "b" fires: "b" is sent all the same. *)
Lemma second_flush_dispatches_while_sending :
  let s := run (commit (lit "a") ++ [EvWait 4000] ++ commit (lit "b")) init in
  sendDisabled s = true /\
  inflight s = [mkRequest 0 (lit "a") AwaitFetch] /\
  sent s = [lit "a"] /\
  sent (step s (EvWait 4000)) = [lit "a"; lit "b"].
Proof. vm_compute. repeat split; reflexivity. Qed.

Lemma flush_ignores_send_state_overlap :
  let s := run (commit (lit "a") ++ [EvWait 4000] ++ commit (lit "b")) init in
  sendDisabled s = true /\
  sent (fire (2, 8000) s) = [lit "a"; lit "b"].
Proof.
  assert (H := flush_ignores_send_state _ (2, 8000) reachable_a_sent_b_pending).
  vm_compute in H. vm_compute.
  destruct H as (H1 & _); [now left|].
  split; [reflexivity|exact H1].
Defined.

(** C5.  In every reachable state at most one callback is scheduled, and
    one is scheduled exactly when the buffer is loaded.  With a loaded
    buffer an activity signal leaves exactly one scheduled callback, a new
    one (its handle is none of the old ones) due a full quiet period from
    now.  With an empty buffer an activity signal changes nothing at all, so
    whatever follows runs as if the signal had not occurred. *)
Theorem single_timer_slot s :
  reachable s ->
  (length (timers s) <= 1)%nat /\
  (pendingChunks s <> [] <-> timers s <> []) /\
  (pendingChunks s <> [] ->
   exists h,
     ~ In h (map fst (timers s)) /\
     pendingTimer (bumpActivityTimer s) = Some h /\
     timers (bumpActivityTimer s) = [(h, clock s + INACTIVITY_MS)]) /\
  (pendingChunks s = [] ->
   bumpActivityTimer s = s /\
   forall key shiftKey evs,
     committing key shiftKey = false ->
     step s (EvKeydown key shiftKey) = s /\
     run (EvKeydown key shiftKey :: evs) s = run evs s).
Proof.
  intros Hr. pose proof (Inv_reachable s Hr) as HI.
  assert (Hiff : pendingChunks s <> [] <-> timers s <> []).
  { split.
    - intros Hne. destruct (Inv_neq_cons s HI Hne) as (h & dl & _ & Ht).
      rewrite Ht. discriminate.
    - intros Ht He. apply Ht. now apply Inv_timers_empty. }
  split; [|split; [exact Hiff|split]].
  - destruct (pendingChunks s) eqn:E.
    + rewrite (Inv_timers_empty s HI E). cbn. lia.
    + destruct (Inv_neq_cons s HI) as (h & dl & _ & Ht).
      { rewrite E. discriminate. }
      rewrite Ht. cbn. lia.
  - intros Hne. exists (nextHandle s).
    rewrite bumpActivityTimer_armed by (try exact (inv_slot s HI); exact Hne).
    cbn. repeat split.
    destruct (Inv_neq_cons s HI Hne) as (h & dl & Hp & Ht).
    destruct (inv_slot s HI) as [_ Hs]. rewrite Hp in Hs.
    destruct Hs as (_ & Hlt & _).
    rewrite Ht. cbn. intros [->|[]]. lia.
  - intros He. split; [now apply bumpActivityTimer_empty|].
    intros key shiftKey evs Hk.
    assert (Hst : step s (EvKeydown key shiftKey) = s).
    { cbn [step]. unfold onKeydown. unfold committing in Hk. rewrite Hk.
      now apply bumpActivityTimer_empty. }
    split; [exact Hst|]. cbn [run fold_left]. now rewrite Hst.
Qed.

(** With "a" buffered a keystroke replaces callback 1 by callback 2; with
    nothing buffered a keystroke is not noticed. *)
Lemma single_timer_slot_rearm :
  let s := run (commit (lit "a") ++ [EvWait 1000]) init in
  timers s = [(1, 4000)] /\
  timers (bumpActivityTimer s) = [(2, 5000)] /\
  step init (EvKeydown (lit "x") false) = init.
Proof.
  assert (Hr : reachable (run (commit (lit "a") ++ [EvWait 1000]) init))
    by (now exists (commit (lit "a") ++ [EvWait 1000])).
  destruct (single_timer_slot _ Hr) as (_ & _ & H3 & _).
  destruct (single_timer_slot init reachable_init) as (_ & _ & _ & H4).
  destruct (H4 eq_refl) as (_ & H5).
  destruct (H5 (lit "x") false [] eq_refl) as (H6 & _).
  vm_compute in H3. vm_compute in H6. vm_compute.
  destruct H3 as (h & _ & Hp & Ht); [discriminate|].
  injection Hp as <-.
  split; [reflexivity|split; [exact Ht|exact H6]].
Defined.

End BufferAndTimer.

Section SendLifecycle.

Lemma drop_request_shorter r ph s :
  find_request r ph s = true ->
  (length (inflight (drop_request r s)) < length (inflight s))%nat.
Proof.
  unfold find_request, drop_request. cbn [inflight set_inflight].
  induction (inflight s) as [|q l IH]; cbn; [discriminate|].
  destruct (req_id q =? r) eqn:E; cbn.
  - intros _. pose proof (filter_length_le (fun q => negb (req_id q =? r)) l).
    lia.
  - intros H. apply IH in H. lia.
Qed.

Lemma inflight_flush_catch s : inflight (flush_catch s) = inflight s.
Proof.
  unfold flush_catch, setSending, console_error, hideTypingIndicator.
  now destruct (typingBubbleEl s).
Qed.

Lemma flush_parsed_done r body s :
  find_request r AwaitJson s = true ->
  sendDisabled (flush_parsed r body s) = false /\
  inflight (flush_parsed r body s) = inflight (drop_request r s).
Proof.
  intros Hf. unfold flush_parsed. rewrite Hf.
  assert (Hc : sendDisabled (flush_catch (drop_request r s)) = false /\
               inflight (flush_catch (drop_request r s))
               = inflight (drop_request r s)).
  { split; [reflexivity|apply inflight_flush_catch]. }
  destruct body as [|data]; [exact Hc|].
  destruct (reply_present data) as [[|]|]; [|split; reflexivity|exact Hc].
  destruct (get data (lit "bot")) as [bot|]; [|exact Hc].
  destruct (appendMessage bot (drop_request r s)) as [s1|] eqn:E; [|exact Hc].
  destruct (appendMessage_rows _ _ _ E) as (B & _).
  unfold beside_messages in B. injection B as _ _ _ _ _ _ _ _ B9 _ _ _ _ _.
  split; [reflexivity|exact B9].
Qed.

Lemma flush_catch_failed s :
  typing_ok s ->
  typingBubbleEl (flush_catch s) = false /\
  no_typing (messagesEl (flush_catch s)) /\
  bubbles (flush_catch s) = bubbles s /\
  console (flush_catch s) = console s ++ [ErrorSendingMessage].
Proof.
  intros H. destruct (hideTypingIndicator_hidden s H) as (H1 & H2).
  unfold flush_catch, setSending, console_error. cbn.
  repeat split; try assumption.
  - apply bubbles_hideTypingIndicator.
  - unfold hideTypingIndicator. now destruct (typingBubbleEl s).
Qed.

(** The request for "a" has failed, the one for "b" is still in flight, and
    the send button is enabled. *)
Lemma send_button_enabled_while_in_flight :
  let s := run (commit (lit "a") ++ [EvWait 4000] ++ commit (lit "b")
                ++ [EvWait 4000; EvSendFetched 0 Rejected]) init in
  inflight s = [mkRequest 1 (lit "b") AwaitFetch] /\
  sendDisabled s = false.
Proof. vm_compute. split; reflexivity. Qed.

(** C6, as the code has it.  In every reachable state: (1) the timer
    callback leaves the send button disabled and the composing indicator
    referenced; (2) the button then stays disabled through every event
    that is not the completion of a request; (3) the completion of any
    request, successful or not, enables the button, sends nothing again,
    puts nothing back into the buffer and retires the request; (4) when
    the completion is a failure (transport error, non-success status,
    unreadable body) the indicator is gone, the bubbles shown are the ones
    shown before, and the failure is logged. *)
Theorem send_lifecycle s e :
  reachable s ->
  (forall t, In t (timers s) ->
     sendDisabled (fire t s) = true /\ typingBubbleEl (fire t s) = true) /\
  (sendDisabled s = true -> completes s e = false ->
     sendDisabled (step s e) = true) /\
  (completes s e = true ->
     sendDisabled (step s e) = false /\
     sent (step s e) = sent s /\
     pendingChunks (step s e) = pendingChunks s /\
     (length (inflight (step s e)) < length (inflight s))%nat) /\
  (completes s e = true -> failure e = true ->
     typingBubbleEl (step s e) = false /\
     no_typing (messagesEl (step s e)) /\
     bubbles (step s e) = bubbles s /\
     console (step s e)
     = console s ++ [match e with
                     | EvSendFetched _ (Resolved _) => FailedToSend
                     | _ => ErrorSendingMessage
                     end]).
Proof.
  intros Hr. pose proof (Inv_reachable s Hr) as HI.
  pose proof (typing_ok_reachable s Hr) as HT.
  split; [|split; [|split]].
  - intros t Hin.
    pose proof (Inv_timer_chunks s t HI Hin) as Hne.
    destruct (Inv_neq_cons s HI Hne) as (h & dl & _ & Ht).
    rewrite Ht in Hin. destruct Hin as [<-|[]].
    rewrite (fire_armed s h dl HI Ht).
    unfold fetchSend, showTypingIndicator, setSending, scrollToBottom.
    cbn. destruct (typingBubbleEl s) eqn:E; cbn; rewrite ?E; split; reflexivity.
  - intros Hd Hc. destruct e; cbn [step completes] in *.
    + exact Hd.
    + unfold onKeydown.
      destruct (JsString.eqb key (lit "Enter") && negb shiftKey).
      * now rewrite sendDisabled_sendMessage, sendDisabled_bump.
      * now rewrite sendDisabled_bump.
    + unfold onClickSend. now rewrite Hd.
    + unfold wait. cbn. now apply sendDisabled_run_timers.
    + exact Hd.
    + unfold fire_handle. destruct (find _ (timers s)); [|exact Hd].
      unfold fire. now apply sendDisabled_flush.
    + unfold flush_fetched.
      destruct res as [|ok]; [now rewrite Hc|].
      destruct (find_request r AwaitFetch s); [|exact Hd].
      destruct ok; [|discriminate]. cbn. now rewrite sendDisabled_hide.
    + unfold flush_parsed. now rewrite Hc.
    + unfold loadHistory_fetched.
      destruct (history s); try exact Hd. destruct res; exact Hd.
    + now rewrite sendDisabled_loadHistory_parsed.
  - intros Hc.
    assert (Hcore : core (step s e) = core s).
    { destruct e; cbn [completes] in Hc; try discriminate; cbn [step].
      - apply core_flush_fetched.
      - apply core_flush_parsed. }
    unfold core in Hcore. injection Hcore as C1 _ _ _ _ C7.
    split; [|split; [exact C7|split; [exact C1|]]];
      destruct e; cbn [completes] in Hc; try discriminate; cbn [step].
    + unfold flush_fetched.
      destruct res as [|ok]; [now rewrite Hc|].
      destruct (find_request r AwaitFetch s); [|discriminate].
      destruct ok; [discriminate|reflexivity].
    + now apply flush_parsed_done.
    + unfold flush_fetched.
      destruct res as [|ok].
      * rewrite Hc, inflight_flush_catch.
        now apply drop_request_shorter with (ph := AwaitFetch).
      * destruct (find_request r AwaitFetch s) eqn:Hf; [|discriminate].
        destruct ok; [discriminate|]. cbn.
        unfold hideTypingIndicator.
        pose proof (drop_request_shorter r AwaitFetch s Hf) as Hlt.
        destruct (typingBubbleEl s); exact Hlt.
    + destruct (flush_parsed_done r body s Hc) as (_ & ->).
      now apply drop_request_shorter with (ph := AwaitJson).
  - intros Hc Hf.
    destruct e; cbn [failure] in Hf; try discriminate;
      cbn [completes] in Hc; cbn [step].
    + unfold flush_fetched.
      destruct res as [|ok].
      * rewrite Hc. apply (flush_catch_failed (drop_request r s)). exact HT.
      * destruct ok; [discriminate|].
        destruct (find_request r AwaitFetch s); [|discriminate]. cbn.
        destruct (hideTypingIndicator_hidden s HT) as (H1 & H2).
        repeat split; try assumption.
        -- apply bubbles_hideTypingIndicator.
        -- unfold hideTypingIndicator. now destruct (typingBubbleEl s).
    + destruct body; [|discriminate].
      unfold flush_parsed. rewrite Hc.
      apply (flush_catch_failed (drop_request r s)). exact HT.
Qed.

(** The transport error of the request for "a": the state is idle again,
    the user's bubble is the only row left. *)
Lemma send_lifecycle_transport_error :
  let s := run (commit (lit "a") ++ [EvWait 4000]) init in
  let s' := step s (EvSendFetched 0 Rejected) in
  sendDisabled s = true /\
  sendDisabled s' = false /\
  typingBubbleEl s' = false /\
  sent s' = [lit "a"] /\
  bubbles s' = bubbles s /\
  console s' = [ErrorSendingMessage].
Proof.
  destruct (send_lifecycle _ (EvSendFetched 0 Rejected) reachable_a_sent)
    as (_ & _ & H3 & H4).
  destruct (H3 eq_refl) as (A1 & A2 & _).
  destruct (H4 eq_refl eq_refl) as (B1 & _ & B3 & B4).
  cbv zeta.
  split; [reflexivity|].
  split; [exact A1|]. split; [exact B1|].
  split; [exact A2|]. split; [exact B3|exact B4].
Defined.

End SendLifecycle.

Section Reply.

#[local] Arguments lit : simpl never.

Lemma trim_nil : trim [] = [].
Proof. reflexivity. Qed.

Lemma reply_present_has_reply data :
  reply_present data = Some true <-> has_reply data.
Proof.
  split.
  - unfold reply_present, has_reply.
    destruct data as [| |b|z|str|items|fs]; cbn; try discriminate.
    destruct (assoc (lit "bot") fs) as [| |b|z|str|items|bfs] eqn:Eb;
      cbn -[Z.eqb]; try discriminate;
      try (destruct b; cbn; discriminate);
      try (destruct (Z.eqb z 0); cbn; discriminate);
      try (destruct str; cbn; discriminate).
    destruct (assoc (lit "text") bfs) as [| |b|z|str|items|tfs] eqn:Et;
      cbn -[Z.eqb]; try discriminate;
      try (destruct b; cbn; discriminate);
      try (destruct (Z.eqb z 0); cbn; discriminate).
    destruct str as [|c q]; cbn [negb]; [discriminate|].
    intros H. injection H as H.
    exists fs, bfs, (c :: q). repeat split; try assumption.
    intros E. rewrite E in H. discriminate.
  - intros (fs & bfs & t & -> & Eb & Et & Hne).
    unfold reply_present. cbn. rewrite Eb. cbn. rewrite Et.
    destruct t as [|c q]; [now rewrite trim_nil in Hne|].
    cbn -[trim JsString.eqb]. now rewrite (eqb_nonempty _ Hne).
Qed.

Lemma appendMessage_reply bfs t s :
  assoc (lit "text") bfs = JStr t -> trim t <> [] ->
  appendMessage (JObj bfs) s
  = if drawable bfs
    then Some (scrollToBottom
                 (set_messagesEl (messagesEl s ++ [reply_bubble bfs]) s))
    else None.
Proof.
  intros Et Hne.
  unfold appendMessage, createMessageBubble, reply_bubble, drawable.
  cbn. rewrite Et.
  destruct t as [|c q]; [now rewrite trim_nil in Hne|].
  cbn -[trim JsString.eqb]. rewrite (eqb_nonempty _ Hne).
  destruct (token_ok (assoc (lit "sender") bfs)); [|reflexivity].
  cbn [negb andb].
  now destruct (str_raises (or_else (assoc (lit "time") bfs) (JStr []))).
Qed.

Lemma bubbles_flush_catch s : bubbles (flush_catch s) = bubbles s.
Proof.
  unfold flush_catch, setSending, console_error. cbn.
  apply bubbles_hideTypingIndicator.
Qed.

Lemma console_flush_catch s :
  Chat.console (flush_catch s) = Chat.console s ++ [ErrorSendingMessage].
Proof.
  unfold flush_catch, setSending, console_error, hideTypingIndicator.
  now destruct (typingBubbleEl s).
Qed.

(** C7.  When the body of a successful response has been read, the test
    that guards the hand-over to the renderer holds exactly when the body
    is an object whose [bot] property is an object whose [text] property is
    a string that is not blank.  Then the record is handed over: it is
    drawn as one new bubble and nothing is logged if the renderer can build
    the bubble (the [sender], which becomes a class name, is a string the
    DOM accepts as such, as an absent sender is, and the [time] has a
    string, as an absent time has); if it cannot, the renderer raises, the
    bubbles shown stay as they were and the error is logged.  In every
    other case the bubbles shown stay as they were. *)
Theorem reply_rendered_iff s r data :
  find_request r AwaitJson s = true ->
  let s' := step s (EvSendParsed r (Resolved data)) in
  (reply_present data = Some true <-> has_reply data) /\
  (has_reply data ->
   exists fs bfs,
     data = JObj fs /\ assoc (lit "bot") fs = JObj bfs /\
     (drawable bfs = true ->
      messagesEl s' = messagesEl s ++ [reply_bubble bfs] /\
      Chat.console s' = Chat.console s) /\
     (drawable bfs = false ->
      bubbles s' = bubbles s /\
      Chat.console s' = Chat.console s ++ [ErrorSendingMessage])) /\
  (~ has_reply data -> bubbles s' = bubbles s).
Proof.
  intros Hf s'. split; [apply reply_present_has_reply|]. split.
  - intros Hh. pose proof (proj2 (reply_present_has_reply data) Hh) as Hp.
    destruct Hh as (fs & bfs & t & -> & Eb & Et & Hne).
    exists fs, bfs. split; [reflexivity|]. split; [exact Eb|].
    assert (E : s' = match (if drawable bfs
                            then Some (scrollToBottom
                                         (set_messagesEl
                                            (messagesEl (drop_request r s)
                                             ++ [reply_bubble bfs])
                                            (drop_request r s)))
                            else None) with
                     | Some s1 => setSending false s1
                     | None => flush_catch (drop_request r s)
                     end).
    { subst s'. cbn [step]. unfold flush_parsed. rewrite Hf, Hp.
      cbn [get]. rewrite Eb.
      now rewrite (appendMessage_reply bfs t _ Et Hne). }
    split; intros Hd; rewrite Hd in E; rewrite E.
    + split; reflexivity.
    + rewrite bubbles_flush_catch, console_flush_catch. split; reflexivity.
  - intros Hn. subst s'. cbn [step]. unfold flush_parsed. rewrite Hf.
    destruct (reply_present data) as [[|]|] eqn:Ep.
    + exfalso. apply Hn. now apply reply_present_has_reply.
    + reflexivity.
    + now rewrite bubbles_flush_catch.
Qed.

(** A reply "ok" is drawn; a reply whose time has no string is handed over
    but not drawn, and the error is logged; a body without [bot] draws
    nothing. *)
Lemma reply_rendered_ok :
  let s := run (commit (lit "a")
                ++ [EvWait 4000; EvSendFetched 0 (Resolved true)]) init in
  let bot := [(lit "text", JStr (lit "ok")); (lit "time", JStr (lit "10:00"))] in
  let odd := [(lit "text", JStr (lit "ok"));
              (lit "time", JObj [(lit "toString", JNum 1)])] in
  messagesEl (step s (EvSendParsed 0 (Resolved (JObj [(lit "bot", JObj bot)]))))
  = messagesEl s ++ [Bubble JUndefined (JStr (lit "ok")) (JStr (lit "10:00"))]
  /\ (let s' := step s (EvSendParsed 0 (Resolved (JObj [(lit "bot", JObj odd)]))) in
      bubbles s' = bubbles s /\
      Chat.console s' = Chat.console s ++ [ErrorSendingMessage])
  /\ bubbles (step s (EvSendParsed 0 (Resolved (JObj [])))) = bubbles s.
Proof.
  cbv zeta.
  set (s := run _ init).
  set (bot := [(lit "text", JStr (lit "ok")); (lit "time", JStr (lit "10:00"))]).
  set (odd := [(lit "text", JStr (lit "ok"));
               (lit "time", JObj [(lit "toString", JNum 1)])]).
  assert (Hf : find_request 0 AwaitJson s = true) by (vm_compute; reflexivity).
  destruct (reply_rendered_iff s 0 (JObj [(lit "bot", JObj bot)]) Hf)
    as (_ & H2 & _).
  destruct (reply_rendered_iff s 0 (JObj [(lit "bot", JObj odd)]) Hf)
    as (_ & H2' & _).
  destruct (reply_rendered_iff s 0 (JObj []) Hf) as (_ & _ & H3).
  split; [|split].
  - destruct H2 as (fs & bfs & E1 & E2 & E3 & _).
    + exists [(lit "bot", JObj bot)], bot, (lit "ok").
      repeat split; try reflexivity. vm_compute. discriminate.
    + injection E1 as <-. vm_compute in E2. injection E2 as <-.
      apply E3. reflexivity.
  - destruct H2' as (fs & bfs & E1 & E2 & _ & E4).
    + exists [(lit "bot", JObj odd)], odd, (lit "ok").
      repeat split; try reflexivity. vm_compute. discriminate.
    + injection E1 as <-. vm_compute in E2. injection E2 as <-.
      apply E4. reflexivity.
  - apply H3. intros (fs & bfs & t & E1 & E2 & _).
    injection E1 as <-. vm_compute in E2. discriminate.
Defined.

End Reply.

Section BlankInput.

(** C8.  A commit whose text trims to nothing leaves the whole state as it
    was, by Enter or by the button; as a gesture on an empty buffer it only
    leaves the text in the field, so no chunk, no bubble, no timer.  A flush
    whose merged text trims to nothing clears the buffer and issues no
    request, disables nothing, draws nothing and logs nothing. *)
Theorem blank_input_ignored s :
  (trim (inputValue s) = [] -> sendMessage s = s /\ onClickSend s = s) /\
  (forall text, trim text = [] ->
     beside_timer (run (commit text) s) = beside_timer (set_inputValue text s) /\
     (pendingChunks s = [] -> run (commit text) s = set_inputValue text s)) /\
  (trim (join space (pendingChunks s)) = [] ->
     let s' := flushPendingChunks s in
     pendingChunks s' = [] /\
     sent s' = sent s /\ inflight s' = inflight s /\
     console s' = console s /\ messagesEl s' = messagesEl s /\
     sendDisabled s' = sendDisabled s /\
     typingBubbleEl s' = typingBubbleEl s).
Proof.
  split; [|split].
  - intros H. split; [now apply sendMessage_blank|].
    unfold onClickSend. destruct (sendDisabled s); [reflexivity|].
    now apply sendMessage_blank.
  - intros text H. cbn [run commit fold_left step]. unfold onKeydown.
    change (JsString.eqb (lit "Enter") (lit "Enter") && negb false) with true.
    cbn iota.
    pose proof (beside_timer_bump (set_inputValue text s)) as B.
    assert (Hb : trim (inputValue (bumpActivityTimer (set_inputValue text s)))
                 = []).
    { unfold beside_timer in B. injection B as B1 _ _ _ _ _ _ _ _ _ _ _.
      now rewrite B1. }
    rewrite (sendMessage_blank _ Hb).
    split; [exact B|].
    intros He. now apply bumpActivityTimer_empty.
  - intros H s'. subst s'. unfold flushPendingChunks.
    destruct (pendingChunks s) eqn:E; [now rewrite E|].
    rewrite H. cbn. repeat split.
Qed.

(** A commit of three blanks into the fresh page, and a flush of a buffer
    that holds one blank chunk. *)
Lemma blank_input_ignored_spaces :
  run (commit (lit "   ")) init = set_inputValue (lit "   ") init /\
  sent (flushPendingChunks (set_pendingChunks [lit " "] init)) = [].
Proof.
  destruct (blank_input_ignored init) as (_ & H2 & _).
  destruct (H2 (lit "   ") eq_refl) as (_ & H).
  destruct (blank_input_ignored (set_pendingChunks [lit " "] init))
    as (_ & _ & H3).
  destruct (H3 eq_refl) as (_ & H4 & _).
  split; [exact (H eq_refl)|exact H4].
Defined.

End BlankInput.

Section Unreachable.

Lemma clean_trimmed c : clean c -> c <> [] /\ trim c = c.
Proof. intros H. split; [now apply clean_nonempty|now apply trim_clean]. Qed.

(** C10.  In every reachable state each chunk in the buffer, and each chunk
    ever pushed, is a non-empty string equal to its own trim.  Hence
    whenever a scheduled callback runs the buffer is loaded, its merged
    text is not blank, and the flush goes all the way to the request:
    neither early return of [flushPendingChunks] is ever taken. *)
Theorem buffer_always_sendable s :
  reachable s ->
  Forall (fun c => c <> [] /\ trim c = c) (pendingChunks s) /\
  Forall (fun c => c <> [] /\ trim c = c) (pushed s) /\
  (forall t, In t (timers s) ->
     pendingChunks s <> [] /\
     trim (join space (pendingChunks s)) <> [] /\
     sent (fire t s) = sent s ++ [join space (pendingChunks s)]).
Proof.
  intros Hr. pose proof (Inv_reachable s Hr) as HI.
  split; [|split].
  - eapply Forall_impl; [|exact (inv_clean s HI)]. apply clean_trimmed.
  - eapply Forall_impl; [|exact (inv_pushed s HI)]. apply clean_trimmed.
  - intros t Hin.
    pose proof (Inv_timer_chunks s t HI Hin) as Hne.
    pose proof (join_clean space _ Hne (inv_clean s HI)) as Hj.
    split; [exact Hne|]. split.
    + rewrite (trim_clean _ Hj). now apply clean_nonempty.
    + destruct (Inv_neq_cons s HI Hne) as (h & dl & _ & Ht).
      rewrite Ht in Hin. destruct Hin as [<-|[]].
      rewrite (fire_armed s h dl HI Ht).
      unfold fetchSend, showTypingIndicator, setSending, scrollToBottom.
      cbn. destruct (typingBubbleEl s); reflexivity.
Qed.

(** After the commits " hi " and "there" the buffer holds "hi" and "there",
    and the callback scheduled sends "hi there". *)
Lemma buffer_always_sendable_hi_there :
  let s := run (commit (lit " hi ") ++ commit (lit "there")) init in
  pendingChunks s = [lit "hi"; lit "there"] /\
  timers s = [(3, 4000)] /\
  sent (fire (3, 4000) s) = [lit "hi there"].
Proof.
  assert (Hr : reachable (run (commit (lit " hi ") ++ commit (lit "there")) init))
    by (now exists (commit (lit " hi ") ++ commit (lit "there"))).
  destruct (buffer_always_sendable _ Hr) as (_ & _ & H).
  specialize (H (3, 4000)). vm_compute in H. vm_compute.
  destruct H as (_ & _ & H); [now left|].
  split; [reflexivity|split; [reflexivity|exact H]].
Defined.

End Unreachable.

Section FetchFailures.

Import DebugPanel.

(** The transcript cannot be fetched, or its body is no array: the error is
    logged and the message list is left empty, with no row saying so. *)
Lemma history_failure_shows_nothing :
  let failed := run [EvHistoryFetched Rejected] init in
  let malformed :=
    run [EvHistoryFetched (Resolved tt); EvHistoryParsed (Resolved (JObj []))]
      init in
  Chat.console failed = [ErrorLoadingHistory] /\ messagesEl failed = [] /\
  Chat.console malformed = [ErrorLoadingHistory] /\ messagesEl malformed = [].
Proof. vm_compute. repeat split; reflexivity. Qed.

(** C9, as the code has it.  A transcript fetch that fails (the transport
    fails, the body cannot be read, the body is no array, or a record in it
    makes the renderer raise) is logged and ends [loadHistory]; the message
    list is left unchanged or holds the records drawn so far, and never a
    placeholder.  A state fetch that fails (the transport fails, the status
    is not a success, the body cannot be read, or rendering raises) is
    logged and the debug panel shows its "couldn't load" placeholder. *)
Theorem fetch_failures_logged (html : Type) (render : jsval -> option html)
    (s : Chat.state) (p : DebugPanel.state html) (r : N) :
  (history s = HistoryAwaitFetch ->
   let s' := step s (EvHistoryFetched Rejected) in
   Chat.console s' = Chat.console s ++ [ErrorLoadingHistory] /\
   messagesEl s' = messagesEl s /\ history s' = HistoryDone) /\
  (history s = HistoryAwaitJson ->
   (let s' := step s (EvHistoryParsed Rejected) in
    Chat.console s' = Chat.console s ++ [ErrorLoadingHistory] /\
    messagesEl s' = messagesEl s /\ history s' = HistoryDone) /\
   (forall data, (forall items, data <> JArr items) ->
    let s' := step s (EvHistoryParsed (Resolved data)) in
    Chat.console s' = Chat.console s ++ [ErrorLoadingHistory] /\
    messagesEl s' = [] /\ history s' = HistoryDone) /\
   (forall items,
    snd (forEach_appendMessage items
           (set_messagesEl [] (set_history HistoryDone s))) = false ->
    let s' := step s (EvHistoryParsed (Resolved (JArr items))) in
    Chat.console s' = Chat.console s ++ [ErrorLoadingHistory] /\
    messagesEl s'
    = messagesEl (fst (forEach_appendMessage items
                         (set_messagesEl [] (set_history HistoryDone s)))) /\
    no_typing (messagesEl s') /\ history s' = HistoryDone)) /\
  (is_pending r StateAwaitFetch p = true ->
   forall res, res = Rejected \/ res = Resolved false ->
   let p' := openDebugPanel_fetched r res p in
   debugBody p' = CouldntLoad /\
   DebugPanel.console p' = DebugPanel.console p ++ [ErrorLoadingUserState]) /\
  (is_pending r StateAwaitJson p = true ->
   forall body,
   body = Rejected \/ (exists d, body = Resolved d /\ render d = None) ->
   let p' := openDebugPanel_parsed render r body p in
   debugBody p' = CouldntLoad /\
   DebugPanel.console p' = DebugPanel.console p ++ [ErrorLoadingUserState]).
Proof.
  split; [|split; [|split]].
  - intros H. cbn [step]. unfold loadHistory_fetched. rewrite H.
    cbn. auto.
  - intros H. split; [|split].
    + cbn [step]. unfold loadHistory_parsed. rewrite H. cbn. auto.
    + intros data Hd. cbn [step]. unfold loadHistory_parsed. rewrite H.
      destruct data; cbn; auto.
      exfalso. now apply (Hd items).
    + intros items Hs. cbn [step]. unfold loadHistory_parsed. rewrite H.
      destruct (forEach_rows items
                  (set_messagesEl [] (set_history HistoryDone s)))
        as (B & rows & M & T).
      destruct (forEach_appendMessage items _) as [s2 fin].
      cbn [fst snd] in *. subst fin.
      unfold beside_messages in B.
      injection B as _ _ _ _ _ _ _ _ _ _ _ B12 B13 _.
      cbn in M, B12, B13. unfold console_error. cbn.
      rewrite B12, B13, M. auto.
  - intros H res [->| ->]; unfold openDebugPanel_fetched; rewrite H;
      cbn; auto.
  - intros H body [->| (d & -> & Hd)]; unfold openDebugPanel_parsed;
      rewrite H; [|rewrite Hd]; cbn; auto.
Qed.

(** The fresh page whose transcript fetch fails, and a debug panel whose
    state fetch is answered with a non-success status. *)
Lemma fetch_failures_logged_fresh :
  let p := openDebugPanel (mkState (html := unit) true Loading [] 0 []) in
  Chat.console (step init (EvHistoryFetched Rejected)) = [ErrorLoadingHistory] /\
  debugBody (openDebugPanel_fetched 0 (Resolved false) p) = CouldntLoad.
Proof.
  cbv zeta.
  destruct (fetch_failures_logged unit (fun _ => None) init
              (openDebugPanel (mkState (html := unit) true Loading [] 0 [])) 0)
    as (H1 & _ & H3 & _).
  destruct (H1 eq_refl) as (A & _).
  destruct (H3 eq_refl (Resolved false) (or_intror eq_refl)) as (B & _).
  split; [exact A|exact B].
Defined.

End FetchFailures.

(** * Further properties *)

Section Records.

#[local] Arguments lit : simpl never.

Lemma appendMessage_object fs s :
  appendMessage (JObj fs) s
  = match assoc (lit "text") fs with
    | JStr t =>
        match trim t with
        | [] => Some s
        | _ :: _ =>
            if drawable fs
            then Some (scrollToBottom
                         (set_messagesEl (messagesEl s ++ [reply_bubble fs]) s))
            else None
        end
    | text => if truthy text then None else Some s
    end.
Proof.
  unfold appendMessage, createMessageBubble, reply_bubble, drawable.
  cbn -[trim JsString.eqb Z.eqb].
  destruct (assoc (lit "text") fs) as [| |b|z|t|items|tfs] eqn:Et;
    cbn -[trim JsString.eqb Z.eqb]; try reflexivity.
  - now destruct b.
  - now destruct (Z.eqb z 0).
  - destruct t as [|c q]; [reflexivity|]. cbn -[trim JsString.eqb].
    destruct (trim (c :: q)) as [|c' q'] eqn:E; [reflexivity|].
    rewrite eqb_nonempty by discriminate.
    destruct (token_ok (assoc (lit "sender") fs)); [|reflexivity].
    cbn [negb andb].
    now destruct (str_raises (or_else (assoc (lit "time") fs) (JStr []))).
Qed.

Lemma appendMessage_other msg s :
  (forall fs, msg <> JObj fs) -> appendMessage msg s = Some s.
Proof.
  intros H. unfold appendMessage.
  destruct msg as [| |b|z|t|items|fs]; cbn -[Z.eqb]; try reflexivity.
  - now destruct b.
  - now destruct (Z.eqb z 0).
  - now destruct t.
  - now destruct (H fs).
Qed.

(** What [appendMessage] does with each kind of record.  A record that is
    falsy or no object is skipped, and so is one whose text is falsy or a
    blank string; a text that is truthy and no string raises; a string that
    is not blank is drawn as one bubble at the end of the list, and the
    view is scrolled once, unless the renderer cannot build the bubble,
    which raises: the sender is refused as a class name, or the time has no
    string (an object with a [toString] property of its own, or an array
    that holds one). *)
Theorem appendMessage_edges s :
  (forall msg, truthy msg = false -> appendMessage msg s = Some s) /\
  (forall msg, (forall fs, msg <> JObj fs) -> appendMessage msg s = Some s) /\
  (forall fs, truthy (assoc (lit "text") fs) = false ->
     appendMessage (JObj fs) s = Some s) /\
  (forall fs t, assoc (lit "text") fs = JStr t -> trim t = [] ->
     appendMessage (JObj fs) s = Some s) /\
  (forall fs, truthy (assoc (lit "text") fs) = true ->
     (forall t, assoc (lit "text") fs <> JStr t) ->
     appendMessage (JObj fs) s = None) /\
  (forall fs t, assoc (lit "text") fs = JStr t -> trim t <> [] ->
     appendMessage (JObj fs) s
     = if drawable fs
       then Some (set_scrolls (scrolls s + 1)
                    (set_messagesEl (messagesEl s ++ [reply_bubble fs]) s))
       else None) /\
  (forall fs tfs, assoc (lit "time") fs = JObj tfs ->
     has_key (lit "toString") tfs = true -> drawable fs = false).
Proof.
  split; [|split; [|split; [|split; [|split; [|split]]]]].
  - intros msg H. unfold appendMessage. now rewrite H.
  - intros msg H. now apply appendMessage_other.
  - intros fs H. rewrite appendMessage_object.
    destruct (assoc (lit "text") fs) as [| |b|z|t|items|tfs];
      try reflexivity; try (now rewrite H); try discriminate.
    destruct t; [reflexivity|discriminate].
  - intros fs t Et Hb. now rewrite appendMessage_object, Et, Hb.
  - intros fs Ht Hn. rewrite appendMessage_object.
    destruct (assoc (lit "text") fs) as [| |b|z|t|items|tfs];
      try (now rewrite Ht); try discriminate.
    now destruct (Hn t).
  - intros fs t Et Hb. rewrite appendMessage_object, Et.
    destruct (trim t); [contradiction|reflexivity].
  - intros fs tfs Et Hk. unfold drawable. rewrite Et.
    unfold or_else. cbn [truthy str_raises]. rewrite Hk.
    apply andb_false_r.
Qed.

(** A record with a numeric text raises; one with text "ok" is drawn; one
    with text "ok" whose time is an object with a [toString] property
    raises. *)
Lemma appendMessage_edges_number_and_ok :
  appendMessage (JObj [(lit "text", JNum 5)]) init = None /\
  appendMessage (JObj [(lit "text", JStr (lit "ok"))]) init
  = Some (set_scrolls 1
            (set_messagesEl
               [Bubble JUndefined (JStr (lit "ok")) (JStr [])] init)) /\
  appendMessage
    (JObj [(lit "text", JStr (lit "ok"));
           (lit "time", JObj [(lit "toString", JNum 1)])]) init
  = None.
Proof.
  destruct (appendMessage_edges init) as (_ & _ & _ & _ & H5 & H6 & _).
  split; [|split].
  - apply H5; [reflexivity|].
    intros t E. vm_compute in E. discriminate.
  - rewrite (H6 [(lit "text", JStr (lit "ok"))] (lit "ok")).
    + reflexivity.
    + reflexivity.
    + vm_compute. discriminate.
  - rewrite (H6 [(lit "text", JStr (lit "ok"));
                 (lit "time", JObj [(lit "toString", JNum 1)])] (lit "ok")).
    + reflexivity.
    + reflexivity.
    + vm_compute. discriminate.
Defined.

(** A record raises, or is drawn as one bubble, or is skipped. *)
Lemma acceptable_appendMessage msg s :
  (acceptable msg = false /\ appendMessage msg s = None) \/
  (exists b, record_rows msg = [b] /\ acceptable msg = true /\
             appendMessage msg s
             = Some (scrollToBottom
                       (set_messagesEl (messagesEl s ++ [b]) s))) \/
  (record_rows msg = [] /\ acceptable msg = true /\ appendMessage msg s = Some s).
Proof.
  destruct msg as [| |b|z|t|items|fs];
    try (right; right; repeat split; apply appendMessage_other; intros fs E;
         discriminate).
  rewrite appendMessage_object. unfold acceptable, record_rows.
  destruct (assoc (lit "text") fs) as [| |b|z|t|items|tfs];
    try (right; right; repeat split; fail);
    try (destruct (truthy _); [left; split; reflexivity
                              |right; right; repeat split]).
  destruct (trim t); [right; right; repeat split|].
  destruct (drawable fs); [right; left|left; split; reflexivity].
  exists (reply_bubble fs). repeat split.
Qed.

Lemma forEach_before_raise items : forall s,
  messagesEl (fst (forEach_appendMessage items s))
  = messagesEl s ++ flat_map record_rows (before_raise items) /\
  snd (forEach_appendMessage items s) = forallb acceptable items /\
  scrolls (fst (forEach_appendMessage items s))
  = scrolls s
    + N.of_nat (length (flat_map record_rows (before_raise items))).
Proof.
  induction items as [|msg rest IH]; intros s; cbn [forEach_appendMessage].
  - cbn. rewrite app_nil_r, N.add_0_r. repeat split.
  - cbn [before_raise forallb].
    destruct (acceptable_appendMessage msg s)
      as [(Ea & E)|[(b & Er & Ea & E)|(Er & Ea & E)]]; rewrite E, Ea.
    + cbn. rewrite app_nil_r, N.add_0_r. repeat split.
    + destruct (IH (scrollToBottom (set_messagesEl (messagesEl s ++ [b]) s)))
        as (M & F & C).
      rewrite M, F, C. cbn [flat_map andb]. rewrite Er. cbn.
      rewrite <- app_assoc. split; [reflexivity|]. split; [reflexivity|].
      lia.
    + cbn [flat_map andb]. rewrite Er. cbn [app]. apply IH.
Qed.

(** When the transcript arrives as an array, the list is replaced, whatever
    it held, by the bubbles of the records before the first one that
    raises, in order, blank and missing texts skipped; the error is logged
    exactly when some record raises; the view is scrolled once for each
    bubble and once more if no record raises; nothing else changes but the
    end of [loadHistory]. *)
Theorem history_rendered s items :
  history s = HistoryAwaitJson ->
  let s' := step s (EvHistoryParsed (Resolved (JArr items))) in
  messagesEl s' = flat_map record_rows (before_raise items) /\
  Chat.console s'
  = Chat.console s
    ++ (if forallb acceptable items then [] else [ErrorLoadingHistory]) /\
  scrolls s'
  = scrolls s + N.of_nat (length (messagesEl s'))
    + (if forallb acceptable items then 1 else 0) /\
  history s' = HistoryDone /\
  core s' = core s /\ network s' = network s /\
  typingBubbleEl s' = typingBubbleEl s /\
  sendDisabled s' = sendDisabled s /\
  inputValue s' = inputValue s /\ clock s' = clock s.
Proof.
  intros H s'. subst s'. cbn [step]. unfold loadHistory_parsed. rewrite H.
  set (s1 := set_messagesEl [] (set_history HistoryDone s)).
  destruct (forEach_before_raise items s1) as (M & F & C).
  destruct (forEach_rows items s1) as (B & _).
  destruct (forEach_appendMessage items s1) as [s2 fin]. cbn [fst snd] in *.
  unfold beside_messages in B.
  injection B as B1 B2 B3 B4 B5 B6 B7 B8 B9 B10 B11 B12 B13 B14.
  cbn in M, C, B1, B2, B3, B4, B5, B6, B7, B8, B9, B10, B11, B12, B13, B14.
  rewrite <- F.
  destruct fin; unfold scrollToBottom, console_error, core, network; cbn;
    rewrite ?app_nil_r, ?N.add_0_r, M, C, B1, B2, B3, B4, B5, B6, B7, B8,
      B9, B10, B11, B12, B13, B14;
    repeat split.
Qed.

(** A transcript of a user line, a record without text, a bot line, a
    record whose time has no string and a line that is never reached,
    arriving after the user has committed "a": the user's bubble is gone,
    two lines are drawn and the error is logged. *)
Lemma history_rendered_two_lines :
  let s := run (EvHistoryFetched (Resolved tt) :: commit (lit "a")) init in
  let items :=
    [JObj [(lit "sender", JStr (lit "user")); (lit "text", JStr (lit "hi"))];
     JObj [(lit "sender", JStr (lit "bot"))];
     JObj [(lit "sender", JStr (lit "bot")); (lit "text", JStr (lit "yo"))];
     JObj [(lit "sender", JStr (lit "bot")); (lit "text", JStr (lit "odd"));
           (lit "time", JObj [(lit "toString", JNum 1)])];
     JObj [(lit "sender", JStr (lit "bot")); (lit "text", JStr (lit "late"))]] in
  bubbles s = [Bubble (JStr (lit "user")) (JStr (lit "a")) (JStr (lit "00:00"))] /\
  messagesEl (step s (EvHistoryParsed (Resolved (JArr items))))
  = [Bubble (JStr (lit "user")) (JStr (lit "hi")) (JStr []);
     Bubble (JStr (lit "bot")) (JStr (lit "yo")) (JStr [])] /\
  Chat.console (step s (EvHistoryParsed (Resolved (JArr items))))
  = [ErrorLoadingHistory].
Proof.
  cbv zeta. split; [vm_compute; reflexivity|].
  match goal with
  | |- messagesEl (step ?s (EvHistoryParsed (Resolved (JArr ?items)))) = _ /\ _ =>
      assert (H := history_rendered s items)
  end.
  vm_compute in H. vm_compute.
  destruct (H eq_refl) as (M & K & _). split; [exact M|exact K].
Defined.

End Records.

Section Indicator.

(** In every reachable state with the indicator hidden, showing it and
    hiding it again restores the message list and every variable of the
    script; what is left is that the view has been scrolled to the bottom
    once, which hiding does not undo.  Showing twice is showing once, and
    hiding twice is hiding once. *)
Theorem indicator_round_trip s :
  reachable s ->
  (typingBubbleEl s = false ->
   hideTypingIndicator (showTypingIndicator s)
   = set_scrolls (scrolls s + 1) s) /\
  showTypingIndicator (showTypingIndicator s) = showTypingIndicator s /\
  hideTypingIndicator (hideTypingIndicator s) = hideTypingIndicator s.
Proof.
  intros Hr. pose proof (typing_ok_reachable s Hr) as HT.
  split; [|split].
  - intros E. specialize (HT E).
    unfold showTypingIndicator, hideTypingIndicator, scrollToBottom.
    rewrite E. cbn.
    rewrite filter_app, (filter_no_typing _ HT). cbn. rewrite app_nil_r.
    unfold set_scrolls. now rewrite E.
  - unfold showTypingIndicator, scrollToBottom.
    destruct (typingBubbleEl s) eqn:E; [now rewrite E|reflexivity].
  - unfold hideTypingIndicator.
    destruct (typingBubbleEl s) eqn:E; [reflexivity|now rewrite E].
Qed.

(** On the fresh page the indicator comes and goes; the one trace it leaves
    is the assignment to the scroll offset. *)
Lemma indicator_round_trip_fresh :
  hideTypingIndicator (showTypingIndicator init) = set_scrolls 1 init.
Proof.
  destruct (indicator_round_trip init reachable_init) as (H & _).
  exact (H eq_refl).
Defined.

(** In every reachable state at most one indicator row is attached, none
    while [typingBubbleEl] is null, and none once [hideTypingIndicator] has
    run. *)
Theorem indicator_attached_once s :
  reachable s ->
  (indicators s <= 1)%nat /\
  (typingBubbleEl s = false -> indicators s = 0%nat) /\
  indicators (hideTypingIndicator s) = 0%nat.
Proof.
  intros Hr. pose proof (typing_ok_reachable s Hr) as HT.
  split; [now apply indicator_unique|]. split.
  - intros E. unfold indicators.
    now rewrite (filter_typing_no_typing _ (HT E)).
  - destruct (hideTypingIndicator_hidden s HT) as (_ & H).
    unfold indicators. now rewrite (filter_typing_no_typing _ H).
Qed.

(** While the request for "a" is in flight one indicator row is attached,
    also after "b" has been sent as well. *)
Lemma indicator_attached_once_overlap :
  indicators (run (commit (lit "a") ++ [EvWait 4000] ++ commit (lit "b")
                   ++ [EvWait 4000]) init) = 1%nat.
Proof.
  assert (Hr : reachable (run (commit (lit "a") ++ [EvWait 4000]
                               ++ commit (lit "b") ++ [EvWait 4000]) init))
    by (now exists (commit (lit "a") ++ [EvWait 4000] ++ commit (lit "b")
                    ++ [EvWait 4000])).
  destruct (indicator_attached_once _ Hr) as (H & _).
  vm_compute in H. vm_compute. reflexivity.
Defined.




End Indicator.

Section Responses.

Lemma flush_catch_fields s :
  core (flush_catch s) = core s /\ clock (flush_catch s) = clock s /\
  inputValue (flush_catch s) = inputValue s.
Proof.
  unfold flush_catch, setSending, console_error, hideTypingIndicator.
  now destruct (typingBubbleEl s).
Qed.

Lemma response_fields s e :
  is_response e = true ->
  core (step s e) = core s /\ clock (step s e) = clock s /\
  inputValue (step s e) = inputValue s.
Proof.
  destruct e; cbn [is_response]; try discriminate; intros _; cbn [step].
  - unfold flush_fetched.
    destruct (find_request r AwaitFetch s); [|auto].
    destruct res as [|ok]; [apply (flush_catch_fields (drop_request r s))|].
    unfold hideTypingIndicator.
    destruct ok; destruct (typingBubbleEl s); cbn; auto.
  - unfold flush_parsed.
    destruct (find_request r AwaitJson s); [|auto].
    pose proof (flush_catch_fields (drop_request r s)) as Hc.
    destruct body as [|data]; [exact Hc|].
    destruct (reply_present data) as [[|]|]; [|cbn; auto|exact Hc].
    destruct (get data (lit "bot")) as [bot|]; [|exact Hc].
    destruct (appendMessage bot (drop_request r s)) as [s1|] eqn:E;
      [|exact Hc].
    pose proof (core_appendMessage _ _ _ E) as C.
    destruct (appendMessage_rows _ _ _ E) as (B & _).
    unfold beside_messages in B. injection B as B1 _ _ _ _ B6 _ _ _ _ _ _ _ _.
    cbn in *. auto.
  - unfold loadHistory_fetched.
    destruct (history s); auto. destruct res; cbn; auto.
  - pose proof (core_loadHistory_parsed body s) as C.
    split; [exact C|]. unfold loadHistory_parsed.
    destruct (history s); auto.
    destruct body as [|data]; [cbn; auto|].
    destruct data; try (cbn; auto; fail).
    destruct (forEach_rows items
                (set_messagesEl [] (set_history HistoryDone s))) as (B & _).
    destruct (forEach_appendMessage items _) as [s2 fin]. cbn [fst] in B.
    unfold beside_messages in B. injection B as B1 _ _ _ _ B6 _ _ _ _ _ _ _ _.
    destruct fin; cbn in *; auto.
Qed.

(** No response, to a send or to the transcript fetch, whatever it carries,
    touches the buffer, the timer, the field the user types in, the clock
    or the record of what was sent. *)
Theorem responses_leave_aggregator s e :
  is_response e = true ->
  pendingChunks (step s e) = pendingChunks s /\
  pendingTimer (step s e) = pendingTimer s /\
  timers (step s e) = timers s /\
  sent (step s e) = sent s /\
  inputValue (step s e) = inputValue s /\
  clock (step s e) = clock s.
Proof.
  intros H. destruct (response_fields s e H) as (C & K & I).
  unfold core in C. injection C as C1 C2 C3 _ _ C6.
  repeat (split; [assumption|]). assumption.
Qed.

(** A reply arrives while "b" is buffered and the user is typing "c". *)
Lemma responses_leave_aggregator_mid_typing :
  let s := run (commit (lit "a") ++ [EvWait 4000] ++ commit (lit "b")
                ++ [EvInput (lit "c"); EvSendFetched 0 (Resolved true)]) init in
  let reply := JObj [(lit "bot", JObj [(lit "text", JStr (lit "ok"))])] in
  pendingChunks (step s (EvSendParsed 0 (Resolved reply))) = [lit "b"] /\
  inputValue (step s (EvSendParsed 0 (Resolved reply))) = lit "c".
Proof.
  cbv zeta.
  match goal with
  | |- pendingChunks (step ?s ?e) = _ /\ _ =>
      destruct (responses_leave_aggregator s e eq_refl)
        as (H1 & _ & _ & _ & H5 & _)
  end.
  split; [rewrite H1|rewrite H5]; vm_compute; reflexivity.
Defined.

End Responses.

Section Echo.

Lemma bumpActivityTimer_loaded s :
  pendingChunks s <> [] ->
  pendingTimer (bumpActivityTimer s) = Some (nextHandle s) /\
  In (nextHandle s, clock s + INACTIVITY_MS) (timers (bumpActivityTimer s)).
Proof.
  intros Hne. unfold bumpActivityTimer, setTimeout, clearTimeout.
  destruct (pendingChunks s); [contradiction|].
  destruct (pendingTimer s) as [h|]; [destruct (h =? 0)|]; cbn;
    (split; [reflexivity|apply in_or_app; right; now left]).
Qed.

(** Whatever the state, a commit with text in the field draws the user's
    bubble at once (the trimmed text, the local time), empties the field,
    appends the trimmed text to the buffer and schedules the flush a quiet
    period ahead; it sends nothing and touches no request. *)
Theorem echo_on_commit s :
  trim (inputValue s) <> [] ->
  let s' := sendMessage s in
  messagesEl s'
  = messagesEl s
    ++ [Bubble (JStr (lit "user")) (JStr (trim (inputValue s)))
          (JStr (localTime (clock s)))] /\
  inputValue s' = [] /\
  pendingChunks s' = pendingChunks s ++ [trim (inputValue s)] /\
  (exists h, pendingTimer s' = Some h /\
             In (h, clock s + INACTIVITY_MS) (timers s')) /\
  network s' = network s /\
  Chat.console s' = Chat.console s.
Proof.
  intros Ht s'. subst s'. rewrite sendMessage_chunk by exact Ht.
  set (s3 := set_pushed _ _).
  pose proof (beside_timer_bump s3) as B. unfold beside_timer in B.
  injection B as B1 B2 _ B4 _ _ B7 B8 B9 B10 _ _.
  destruct (bumpActivityTimer_loaded s3) as (P & T).
  { subst s3. cbn. now destruct (pendingChunks s). }
  unfold network. rewrite B1, B2, B4, B7, B8, B9, B10.
  subst s3. cbn in *. repeat split. eauto.
Qed.

(** " hi " typed into the fresh page and committed. *)
Lemma echo_on_commit_hi :
  messagesEl (sendMessage (set_inputValue (lit " hi ") init))
  = [Bubble (JStr (lit "user")) (JStr (lit "hi")) (JStr (lit "00:00"))].
Proof.
  assert (H := echo_on_commit (set_inputValue (lit " hi ") init)).
  vm_compute in H. vm_compute.
  destruct H as (H & _); [discriminate|exact H].
Defined.

(** With the button enabled, a commit by the button and a commit by Enter
    leave states that agree on everything but the timer slot; in a
    reachable state each leaves exactly one callback, due a quiet period
    ahead; and with an empty buffer the two states are the same. *)
Theorem button_commit_like_enter s text :
  reachable s -> sendDisabled s = false -> trim text <> [] ->
  let sb := run (commit_events ByButton text) s in
  let se := run (commit_events ByEnter text) s in
  beside_timer sb = beside_timer se /\
  (exists hb he,
      timers sb = [(hb, clock s + INACTIVITY_MS)] /\
      timers se = [(he, clock s + INACTIVITY_MS)]) /\
  (pendingChunks s = [] -> sb = se).
Proof.
  intros Hr Hd Ht sb se. pose proof (Inv_reachable s Hr) as HI.
  destruct (commit_armed s ByButton text HI Ht) as ((_ & hb & Tb) & _ & Cb & _).
  { intros _. exact Hd. }
  destruct (commit_armed s ByEnter text HI Ht) as ((_ & he & Te) & _ & Ce & _).
  { intros E. discriminate. }
  fold sb in Tb, Cb. fold se in Te, Ce. rewrite Cb in Tb. rewrite Ce in Te.
  split; [|split; [eauto|]].
  - subst sb se. cbn [run commit_events fold_left step].
    unfold onClickSend, onKeydown.
    change (JsString.eqb (lit "Enter") (lit "Enter") && negb false) with true.
    cbn iota. change (sendDisabled (set_inputValue text s)) with (sendDisabled s).
    rewrite Hd.
    set (s0 := set_inputValue text s).
    pose proof (beside_timer_bump s0) as B.
    set (s1 := bumpActivityTimer s0) in *.
    assert (H0 : trim (inputValue s0) <> []) by exact Ht.
    assert (H1 : trim (inputValue s1) <> []).
    { unfold beside_timer in B. injection B as B1 _ _ _ _ _ _ _ _ _ _ _.
      now rewrite B1. }
    rewrite (sendMessage_chunk s0 H0), (sendMessage_chunk s1 H1).
    rewrite !beside_timer_bump.
    unfold beside_timer in *. cbn.
    injection B as B1 B2 B3 B4 B5 B6 B7 B8 B9 B10 B11 B12 B13.
    now rewrite B1, B2, B3, B4, B5, B6, B7, B8, B9, B10, B11, B12, B13.
  - intros He. subst sb se. cbn [run commit_events fold_left step].
    unfold onClickSend, onKeydown.
    change (JsString.eqb (lit "Enter") (lit "Enter") && negb false) with true.
    cbn iota. change (sendDisabled (set_inputValue text s)) with (sendDisabled s).
    rewrite Hd. now rewrite (bumpActivityTimer_empty (set_inputValue text s)).
Qed.

(** "b" committed on top of a buffered "a": the button leaves callback 2,
    Enter leaves callback 3, both due at 4000. *)
Lemma button_commit_like_enter_handles :
  let s := run (commit (lit "a")) init in
  timers (run (commit_events ByButton (lit "b")) s) = [(2, 4000)] /\
  timers (run (commit_events ByEnter (lit "b")) s) = [(3, 4000)] /\
  pendingChunks (run (commit_events ByButton (lit "b")) s)
  = pendingChunks (run (commit_events ByEnter (lit "b")) s).
Proof.
  assert (Hr : reachable (run (commit (lit "a")) init))
    by (now exists (commit (lit "a"))).
  assert (H := button_commit_like_enter _ (lit "b") Hr eq_refl).
  vm_compute in H. vm_compute.
  destruct H as (_ & (hb & he & Tb & Te) & _); [discriminate|].
  injection Tb as <-. injection Te as <-.
  split; [reflexivity|split; reflexivity].
Defined.

End Echo.

Section Silence.

Lemma passive_idle_step s e :
  Inv s -> pendingChunks s = [] -> passive e = true ->
  pendingChunks (step s e) = [] /\ sent (step s e) = sent s.
Proof.
  intros HI He Hp. pose proof (Inv_timers_empty s HI He) as Ht.
  destruct e; cbn [passive] in Hp; try discriminate; cbn [step].
  - auto.
  - rewrite (wait_idle d s Ht). auto.
  - auto.
  - unfold fire_handle. rewrite Ht. cbn. auto.
  - destruct (response_fields s (EvSendFetched r res) eq_refl) as (C & _).
    unfold core in C. injection C as C1 _ _ _ _ C6. cbn [step] in *.
    now rewrite C1, C6.
  - destruct (response_fields s (EvSendParsed r body) eq_refl) as (C & _).
    unfold core in C. injection C as C1 _ _ _ _ C6. cbn [step] in *.
    now rewrite C1, C6.
  - destruct (response_fields s (EvHistoryFetched res) eq_refl) as (C & _).
    unfold core in C. injection C as C1 _ _ _ _ C6. cbn [step] in *.
    now rewrite C1, C6.
  - destruct (response_fields s (EvHistoryParsed body) eq_refl) as (C & _).
    unfold core in C. injection C as C1 _ _ _ _ C6. cbn [step] in *.
    now rewrite C1, C6.
Qed.

(** With an empty buffer nothing is ever sent as long as the user presses
    no key and clicks nothing, however much time passes, whatever responses
    arrive and whichever timer handles the browser tries to fire. *)
Theorem idle_never_sends s evs :
  reachable s -> pendingChunks s = [] -> forallb passive evs = true ->
  sent (run evs s) = sent s /\ pendingChunks (run evs s) = [].
Proof.
  intros Hr. pose proof (Inv_reachable s Hr) as HI. clear Hr.
  revert s HI. induction evs as [|e r IH]; intros s HI He Hp; [auto|].
  cbn [forallb] in Hp. apply andb_true_iff in Hp. destruct Hp as [Hp Hr].
  destruct (passive_idle_step s e HI He Hp) as [He' Hs'].
  cbn [run fold_left].
  destruct (IH (step s e) (Inv_step s e HI) He' Hr) as [H1 H2].
  unfold run in *. rewrite H1, Hs'. auto.
Qed.

(** After "a" has been sent, an hour of waiting, its reply and stray timer
    events send nothing more. *)
Lemma idle_never_sends_after_a :
  sent (run [EvWait 3600000; EvSendFetched 0 (Resolved true); EvTimer 1;
             EvSendParsed 0 (Resolved JNull); EvTick 5; EvTimer 1]
          (run (commit (lit "a") ++ [EvWait 4000]) init))
  = [lit "a"].
Proof.
  assert (H := idle_never_sends _
                 [EvWait 3600000; EvSendFetched 0 (Resolved true); EvTimer 1;
                  EvSendParsed 0 (Resolved JNull); EvTick 5; EvTimer 1]
                 reachable_a_sent eq_refl eq_refl).
  destruct H as [H _]. rewrite H. vm_compute. reflexivity.
Defined.

Lemma passive_early_step s e h deadline :
  Inv s -> timers s = [(h, deadline)] -> passive e = true ->
  clock s + elapsed [e] < deadline ->
  timers (step s e) = [(h, deadline)] /\
  clock (step s e) = clock s + elapsed [e] /\
  pendingChunks (step s e) = pendingChunks s /\
  sent (step s e) = sent s.
Proof.
  intros HI Ht Hp Hlt.
  assert (Hresp : is_response e = true ->
                  timers (step s e) = [(h, deadline)] /\
                  clock (step s e) = clock s + 0 /\
                  pendingChunks (step s e) = pendingChunks s /\
                  sent (step s e) = sent s).
  { intros Hr. destruct (response_fields s e Hr) as (C & K & _).
    unfold core in C. injection C as C1 _ C3 _ _ C6.
    rewrite C3, K, C1, C6, N.add_0_r. auto. }
  destruct e; cbn [passive] in Hp; try discriminate;
    try (apply Hresp; reflexivity); cbn [step elapsed] in *.
  - rewrite N.add_0_r. auto.
  - rewrite N.add_0_r in *. rewrite (wait_early d s h deadline Ht Hlt).
    cbn. auto.
  - rewrite N.add_0_r. cbn. auto.
  - unfold fire_handle. rewrite Ht. cbn [find fst snd].
    assert (E : (deadline <=? clock s) = false) by (apply N.leb_gt; lia).
    rewrite E, andb_false_r, N.add_0_r. auto.
Qed.

Lemma elapsed_cons e r : elapsed (e :: r) = elapsed [e] + elapsed r.
Proof. destruct e; cbn [elapsed]; lia. Qed.

(** While the user presses no key and clicks nothing, the buffer is not
    sent before the deadline of its timer: whatever responses arrive and
    whatever the browser tries to fire in the meantime, as long as less
    time has passed than is left to the deadline, the buffer, the timer and
    the record of what was sent stay as they are. *)
Theorem no_send_before_deadline s h deadline evs :
  reachable s -> timers s = [(h, deadline)] ->
  forallb passive evs = true -> clock s + elapsed evs < deadline ->
  sent (run evs s) = sent s /\
  pendingChunks (run evs s) = pendingChunks s /\
  timers (run evs s) = [(h, deadline)].
Proof.
  intros Hr. pose proof (Inv_reachable s Hr) as HI. clear Hr.
  revert s HI. induction evs as [|e r IH]; intros s HI Ht Hp Hlt; [auto|].
  cbn [forallb] in Hp. apply andb_true_iff in Hp. destruct Hp as [Hp Hr].
  rewrite elapsed_cons in Hlt.
  destruct (passive_early_step s e h deadline HI Ht Hp) as (T & K & C & S);
    [lia|].
  cbn [run fold_left].
  destruct (IH (step s e) (Inv_step s e HI) T Hr) as (H1 & H2 & H3);
    [rewrite K; lia|].
  unfold run in *. rewrite H1, H2, S, C. auto.
Qed.

(** "b" is buffered at 4000 while "a" is in flight: for the next 3999 ms
    the reply to "a" and stray timer events do not get "b" sent. *)
Lemma no_send_before_deadline_b :
  let s := run (commit (lit "a") ++ [EvWait 4000] ++ commit (lit "b")) init in
  let evs := [EvWait 2000; EvSendFetched 0 Rejected; EvTimer 2; EvTick 1999;
              EvTimer 2] in
  sent (run evs s) = [lit "a"] /\ pendingChunks (run evs s) = [lit "b"].
Proof.
  cbv zeta.
  assert (H := no_send_before_deadline _ 2 8000
                 [EvWait 2000; EvSendFetched 0 Rejected; EvTimer 2;
                  EvTick 1999; EvTimer 2]
                 reachable_a_sent_b_pending eq_refl eq_refl eq_refl).
  destruct H as (H1 & H2 & _). rewrite H1, H2.
  vm_compute. split; reflexivity.
Defined.

Lemma Forall_concat {A} (P : A -> Prop) (groups : list (list A)) rest :
  Forall P (concat groups ++ rest) -> Forall (Forall P) groups.
Proof.
  induction groups as [|g r IH]; cbn; [constructor|].
  rewrite <- app_assoc. intros H. apply Forall_app in H. destruct H as [Hg Hr].
  constructor; [exact Hg|now apply IH].
Qed.

Lemma length_concat_nonempty {A} (groups : list (list A)) :
  Forall (fun g => g <> []) groups ->
  (length groups <= length (concat groups))%nat.
Proof.
  induction 1 as [|g r Hg _ IH]; cbn; [lia|].
  rewrite length_app. destruct g; [contradiction|]. cbn. lia.
Qed.

(** In every reachable state each payload sent so far is non-empty and
    equal to its own trim, and there are no more payloads than chunks
    committed. *)
Theorem payloads_trimmed s :
  reachable s ->
  Forall (fun p => p <> [] /\ trim p = p) (sent s) /\
  (length (sent s) <= length (pushed s))%nat.
Proof.
  intros Hr. destruct (Inv_reachable s Hr) as [_ _ _ Hp (groups & G1 & G2 & G3)].
  rewrite G1 in Hp. pose proof (Forall_concat _ _ _ Hp) as Hc.
  rewrite G2. split.
  - clear G1 G2 Hp. induction groups as [|g r IH]; cbn; [constructor|].
    inversion G3; subst. inversion Hc; subst.
    constructor; [|now apply IH].
    apply clean_trimmed. now apply join_clean.
  - rewrite length_map, G1, length_app.
    pose proof (length_concat_nonempty groups G3). lia.
Qed.

(** " hi " and " there " committed one second apart, sent as "hi there". *)
Lemma payloads_trimmed_hi_there :
  sent (run (commit (lit " hi ") ++ [EvWait 1000] ++ commit (lit " there ")
             ++ [EvWait 4000]) init) = [lit "hi there"] /\
  trim (lit "hi there") = lit "hi there".
Proof.
  assert (Hr : reachable (run (commit (lit " hi ") ++ [EvWait 1000]
                               ++ commit (lit " there ") ++ [EvWait 4000]) init))
    by (now exists (commit (lit " hi ") ++ [EvWait 1000]
                    ++ commit (lit " there ") ++ [EvWait 4000])).
  destruct (payloads_trimmed _ Hr) as (H & _).
  assert (E : sent (run (commit (lit " hi ") ++ [EvWait 1000]
                         ++ commit (lit " there ") ++ [EvWait 4000]) init)
              = [lit "hi there"]) by (vm_compute; reflexivity).
  rewrite E in H. apply Forall_inv in H. destruct H as [_ Ht].
  split; [exact E|exact Ht].
Defined.

End Silence.

Section Requests.

Lemma requests_ok_network s s' :
  network s' = network s -> requests_ok s -> requests_ok s'.
Proof.
  unfold network, requests_ok. intros E H. injection E as -> -> ->. exact H.
Qed.

Lemma network_bump s : network (bumpActivityTimer s) = network s.
Proof.
  pose proof (beside_timer_bump s) as B. unfold beside_timer in B.
  injection B as _ _ _ _ _ _ B7 B8 B9 _ _ _.
  unfold network. now rewrite B7, B8, B9.
Qed.

Lemma network_appendMessage msg s s' :
  appendMessage msg s = Some s' -> network s' = network s.
Proof.
  intros E. destruct (appendMessage_rows _ _ _ E) as (B & _).
  unfold beside_messages in B. injection B as _ _ _ _ _ _ _ _ B9 B10 B11 _ _ _.
  unfold network. now rewrite B9, B10, B11.
Qed.

Lemma network_sendMessage s : network (sendMessage s) = network s.
Proof.
  unfold sendMessage.
  destruct (trim (inputValue s)) as [|c q]; [reflexivity|].
  destruct (appendMessage _ s) as [s1|] eqn:E; [|reflexivity].
  rewrite network_bump. apply (network_appendMessage _ _ _ E).
Qed.

Lemma network_hide s : network (hideTypingIndicator s) = network s.
Proof. unfold hideTypingIndicator. now destruct (typingBubbleEl s). Qed.

Lemma requests_ok_fetchSend text s :
  requests_ok s -> requests_ok (fetchSend text s).
Proof.
  intros (Hn & Hd & Hf). unfold fetchSend, requests_ok. cbn.
  assert (Hlt : forall q, In q (inflight s) ->
                  (N.to_nat (req_id q) < length (sent s))%nat).
  { intros q Hq. rewrite Forall_forall in Hf.
    apply nth_error_Some. rewrite (Hf q Hq). discriminate. }
  split; [|split].
  - rewrite length_app. cbn. lia.
  - rewrite map_app. cbn. apply NoDup_app; [exact Hd| |].
    + constructor; [intros []|constructor].
    + intros a Ha [<-|[]]. apply in_map_iff in Ha.
      destruct Ha as (q & Eq & Hq). apply Hlt in Hq. lia.
  - apply Forall_app. split.
    + apply Forall_forall. intros q Hq.
      rewrite nth_error_app1 by now apply Hlt.
      rewrite Forall_forall in Hf. now apply Hf.
    + constructor; [|constructor]. cbn.
      rewrite Hn, Nat2N.id, nth_error_app2 by lia.
      now rewrite Nat.sub_diag.
Qed.

Lemma requests_ok_flush s : requests_ok s -> requests_ok (flushPendingChunks s).
Proof.
  intros H. unfold flushPendingChunks.
  destruct (pendingChunks s) as [|c r]; [exact H|].
  destruct (trim (join space (c :: r))) as [|x y]; [exact H|].
  apply requests_ok_fetchSend.
  eapply requests_ok_network; [|exact H].
  unfold showTypingIndicator, setSending, scrollToBottom. cbn.
  now destruct (typingBubbleEl s).
Qed.

Lemma requests_ok_fire t s : requests_ok s -> requests_ok (fire t s).
Proof. intros H. unfold fire. apply requests_ok_flush. exact H. Qed.

Lemma requests_ok_run_timers fuel limit : forall s,
  requests_ok s -> requests_ok (run_timers fuel limit s).
Proof.
  induction fuel as [|n IH]; intros s H; cbn [run_timers]; [exact H|].
  destruct (next_due limit (timers s)) as [t|]; [|exact H].
  now apply IH, requests_ok_fire.
Qed.

Lemma NoDup_map_filter {A B} (f : A -> B) (p : A -> bool) l :
  NoDup (map f l) -> NoDup (map f (filter p l)).
Proof.
  induction l as [|a l IH]; cbn; [auto|]. intros H. inversion H; subst.
  destruct (p a); cbn; [|auto]. constructor; [|auto].
  intros Hin. apply in_map_iff in Hin. destruct Hin as (x & E & Hx).
  apply filter_In in Hx. destruct Hx as [Hx _].
  match goal with H : ~ In _ _ |- _ => apply H end.
  rewrite <- E. now apply in_map.
Qed.

Lemma requests_ok_drop r s : requests_ok s -> requests_ok (drop_request r s).
Proof.
  intros (Hn & Hd & Hf). unfold requests_ok, drop_request. cbn.
  repeat split; [exact Hn|now apply NoDup_map_filter|].
  apply Forall_forall. intros q Hq. apply filter_In in Hq.
  rewrite Forall_forall in Hf. now apply Hf.
Qed.

Lemma requests_ok_await r s : requests_ok s -> requests_ok (await_json r s).
Proof.
  intros (Hn & Hd & Hf). unfold requests_ok, await_json. cbn.
  assert (E : map req_id
                (map (fun q => if req_id q =? r
                               then mkRequest (req_id q) (req_text q) AwaitJson
                               else q) (inflight s))
              = map req_id (inflight s)).
  { rewrite map_map. apply map_ext. intros q. now destruct (req_id q =? r). }
  repeat split; [exact Hn|now rewrite E|].
  apply Forall_map. eapply Forall_impl; [|exact Hf].
  intros q Hq. now destruct (req_id q =? r).
Qed.

Lemma requests_ok_step s e : requests_ok s -> requests_ok (step s e).
Proof.
  intros H. destruct e; cbn [step].
  - exact H.
  - unfold onKeydown.
    destruct (JsString.eqb key (lit "Enter") && negb shiftKey);
      eapply requests_ok_network; try exact H;
      now rewrite ?network_sendMessage, network_bump.
  - unfold onClickSend. destruct (sendDisabled s); [exact H|].
    eapply requests_ok_network; [apply network_sendMessage|exact H].
  - unfold wait.
    apply requests_ok_network
      with (s := run_timers (length (timers s)) (clock s + d) s);
      [reflexivity|now apply requests_ok_run_timers].
  - exact H.
  - unfold fire_handle. destruct (find _ (timers s)); [|exact H].
    now apply requests_ok_fire.
  - unfold flush_fetched, flush_catch.
    destruct (find_request r AwaitFetch s); [|exact H].
    destruct res as [|[|]]; cbn [negb].
    + eapply requests_ok_network; [|apply (requests_ok_drop r s H)].
      unfold setSending, console_error. cbn.
      apply (network_hide (drop_request r s)).
    + apply requests_ok_await.
      eapply requests_ok_network; [apply network_hide|exact H].
    + apply requests_ok_network with (s := drop_request r (hideTypingIndicator s));
        [reflexivity|].
      apply requests_ok_drop.
      eapply requests_ok_network; [apply network_hide|exact H].
  - unfold flush_parsed.
    destruct (find_request r AwaitJson s); [|exact H].
    pose proof (requests_ok_drop r s H) as H0.
    assert (Hc : requests_ok (flush_catch (drop_request r s))).
    { eapply requests_ok_network; [|exact H0].
      unfold flush_catch, setSending, console_error. cbn.
      apply (network_hide (drop_request r s)). }
    destruct body as [|data]; [exact Hc|].
    destruct (reply_present data) as [[|]|]; [|exact H0|exact Hc].
    destruct (get data (lit "bot")) as [bot|]; [|exact Hc].
    destruct (appendMessage bot (drop_request r s)) as [s1|] eqn:E;
      [|exact Hc].
    eapply requests_ok_network; [|exact H0].
    unfold setSending. cbn. apply (network_appendMessage _ _ _ E).
  - unfold loadHistory_fetched.
    destruct (history s); try exact H. destruct res; exact H.
  - unfold loadHistory_parsed.
    destruct (history s); try exact H.
    destruct body as [|data]; [exact H|].
    destruct data; try exact H.
    destruct (forEach_rows items
                (set_messagesEl [] (set_history HistoryDone s))) as (B & _).
    destruct (forEach_appendMessage items _) as [s2 fin]. cbn [fst] in B.
    unfold beside_messages in B.
    injection B as _ _ _ _ _ _ _ _ B9 B10 B11 _ _ _.
    eapply requests_ok_network; [|exact H].
    unfold network, scrollToBottom, console_error.
    destruct fin; cbn in *; now rewrite B9, B10, B11.
Qed.

Lemma find_request_drop r ph s : find_request r ph (drop_request r s) = false.
Proof.
  unfold find_request, drop_request. cbn.
  induction (inflight s) as [|q l IH]; [reflexivity|]. cbn.
  destruct (req_id q =? r) eqn:E; cbn; [exact IH|]. now rewrite E.
Qed.

Lemma find_request_drop_other r r' ph s :
  r' <> r -> find_request r' ph (drop_request r s) = find_request r' ph s.
Proof.
  intros Hn. unfold find_request, drop_request. cbn.
  induction (inflight s) as [|q l IH]; [reflexivity|]. cbn.
  destruct (req_id q =? r) eqn:E; cbn; [|now rewrite IH].
  apply N.eqb_eq in E. rewrite IH.
  assert (E' : (req_id q =? r') = false) by (apply N.eqb_neq; congruence).
  now rewrite E'.
Qed.

Lemma find_request_network s s' r ph :
  inflight s' = inflight s -> find_request r ph s' = find_request r ph s.
Proof. unfold find_request. now intros ->. Qed.

Lemma inflight_hide s : inflight (hideTypingIndicator s) = inflight s.
Proof. unfold hideTypingIndicator. now destruct (typingBubbleEl s). Qed.

(** The completion of a request is final and private: once request [r] has
    failed, been refused or had its body read, no settling of [r] finds it
    again, in either phase, and every other request is in flight exactly as
    before. *)
Theorem completion_is_final s e r :
  completes s e = true ->
  (exists res, e = EvSendFetched r res) \/ (exists body, e = EvSendParsed r body) ->
  (forall ph, find_request r ph (step s e) = false) /\
  (forall r' ph, r' <> r ->
     find_request r' ph (step s e) = find_request r' ph s).
Proof.
  intros Hc He.
  assert (Hi : inflight (step s e) = inflight (drop_request r s)).
  { destruct He as [[res ->]|[body ->]]; cbn [completes step] in *.
    - unfold flush_fetched.
      destruct res as [|ok].
      + rewrite Hc. apply inflight_flush_catch.
      + destruct (find_request r AwaitFetch s); [|discriminate].
        destruct ok; [discriminate|]. cbn.
        now rewrite inflight_hide.
    - now apply flush_parsed_done. }
  split.
  - intros ph. rewrite (find_request_network _ _ r ph Hi).
    apply find_request_drop.
  - intros r' ph Hn. rewrite (find_request_network _ _ r' ph Hi).
    now apply find_request_drop_other.
Qed.

(** With "a" and "b" in flight, the failure of "a" retires request 0 and
    leaves request 1 waiting. *)
Lemma completion_is_final_overlap :
  let s := run (commit (lit "a") ++ [EvWait 4000] ++ commit (lit "b")
                ++ [EvWait 4000]) init in
  let s' := step s (EvSendFetched 0 Rejected) in
  find_request 0 AwaitFetch s' = false /\
  find_request 1 AwaitFetch s' = true /\
  step s' (EvSendFetched 0 (Resolved true)) = s'.
Proof.
  cbv zeta.
  match goal with
  | |- find_request 0 AwaitFetch (step ?s ?e) = _ /\ _ =>
      destruct (completion_is_final s e 0 eq_refl
                  (or_introl (ex_intro _ Rejected eq_refl))) as (H1 & H2)
  end.
  split; [apply H1|]. split.
  - rewrite H2 by discriminate. vm_compute. reflexivity.
  - vm_compute. reflexivity.
Defined.

End Requests.

Section DebugPanelLoop.

Import DebugPanel DebugLoop.

Variable html : Type.
Variable render : jsval -> option html.

Lemma is_pending_close r ph (p : DebugPanel.state html) :
  is_pending r ph (closeDebugPanel p) = is_pending r ph p.
Proof. reflexivity. Qed.

(** Closing the panel cancels nothing: a response handled after the close
    does to the body, the log and the pending fetches what it would have
    done before it, and the panel stays hidden; in particular the state
    read after the close is rendered into the hidden panel. *)
Theorem close_does_not_cancel (p : DebugPanel.state html) r :
  (forall res,
     openDebugPanel_fetched r res (closeDebugPanel p)
     = closeDebugPanel (openDebugPanel_fetched r res p)) /\
  (forall data,
     openDebugPanel_parsed render r data (closeDebugPanel p)
     = closeDebugPanel (openDebugPanel_parsed render r data p)) /\
  (is_pending r StateAwaitJson p = true ->
   forall d h, render d = Some h ->
   let p' := openDebugPanel_parsed render r (Resolved d) (closeDebugPanel p) in
   overlayHidden p' = true /\ debugBody p' = Content h /\
   DebugPanel.console p' = DebugPanel.console p).
Proof.
  split; [|split].
  - intros res. unfold openDebugPanel_fetched. rewrite is_pending_close.
    destruct (is_pending r StateAwaitFetch p); [|reflexivity].
    destruct res as [|[|]]; reflexivity.
  - intros data. unfold openDebugPanel_parsed. rewrite is_pending_close.
    destruct (is_pending r StateAwaitJson p); [|reflexivity].
    destruct data as [|d]; [reflexivity|].
    destruct (render d); reflexivity.
  - intros Hp d h Hd p'. subst p'. unfold openDebugPanel_parsed.
    rewrite is_pending_close, Hp, Hd. cbn. auto.
Qed.

Lemma loading_step (p : DebugPanel.state html) e :
  (debugBody p = Loading -> pending p <> []) ->
  debugBody (DebugLoop.step render p e) = Loading ->
  pending (DebugLoop.step render p e) <> [].
Proof.
  intros J. destruct e; cbn [DebugLoop.step].
  - intros _. cbn. now destruct (pending p).
  - exact J.
  - destruct targetIsOverlay; exact J.
  - unfold openDebugPanel_fetched.
    destruct (is_pending r StateAwaitFetch p); [|exact J].
    destruct res as [|[|]]; cbn; try discriminate.
    intros E. specialize (J E). now destruct (pending p).
  - unfold openDebugPanel_parsed.
    destruct (is_pending r StateAwaitJson p); [|exact J].
    destruct data as [|d]; cbn; try discriminate.
    destruct (render d); cbn; discriminate.
Qed.

(** Once the panel has been opened it never stays on "Loading" with
    nothing to wait for: after any clicks and responses, if the body still
    shows the loading text then a state fetch is still pending. *)
Theorem loading_not_stuck (p0 : DebugPanel.state html) evs :
  let p := DebugLoop.run render evs (openDebugPanel p0) in
  debugBody p = Loading -> pending p <> [].
Proof.
  cbv zeta. unfold DebugLoop.run.
  assert (J : debugBody (openDebugPanel p0) = Loading ->
              pending (openDebugPanel p0) <> []).
  { intros _. cbn. now destruct (pending p0). }
  revert J. generalize (openDebugPanel p0).
  induction evs as [|e r IH]; intros p J; [exact J|].
  cbn [fold_left]. apply IH. now apply loading_step.
Qed.

End DebugPanelLoop.

Section DebugPanelExamples.

Import DebugPanel DebugLoop.

(** The panel is opened and closed at once; the state arrives afterwards
    and is rendered behind the closed overlay. *)
Lemma close_does_not_cancel_late_state :
  let p := run (fun d => Some d)
             [EvOpen; EvClose; EvStateFetched 0 (Resolved true)]
             (mkState true Loading [] 0 []) in
  let p' := openDebugPanel_parsed (fun d => Some d) 0 (Resolved JNull) p in
  overlayHidden p' = true /\ debugBody p' = Content JNull.
Proof.
  cbv zeta.
  destruct (close_does_not_cancel jsval (fun d => Some d)
              (run (fun d => Some d) [EvOpen; EvStateFetched 0 (Resolved true)]
                 (mkState true Loading [] 0 [])) 0) as (_ & _ & H).
  destruct (H eq_refl JNull JNull eq_refl) as (H1 & H2 & _).
  split; [exact H1|exact H2].
Defined.

(** Opened twice, the first fetch answered but not yet read: the panel
    shows the loading text and both fetches are pending. *)
Lemma loading_not_stuck_two_opens :
  let p := run (fun _ : jsval => @None unit)
             [EvOpen; EvStateFetched 0 (Resolved true)]
             (openDebugPanel (mkState true Loading [] 0 [])) in
  debugBody p = Loading /\ pending p <> [].
Proof.
  cbv zeta. split; [reflexivity|].
  apply (loading_not_stuck unit (fun _ => None)
           (mkState true Loading [] 0 [])
           [EvOpen; EvStateFetched 0 (Resolved true)]).
  reflexivity.
Defined.

End DebugPanelExamples.

Section Controls.

Lemma reachable_step s e : reachable s -> reachable (step s e).
Proof.
  intros [evs ->]. exists (evs ++ [e]). unfold run.
  now rewrite fold_left_app.
Qed.

(** A callback that has been cancelled or has already run never runs: in
    every reachable state a timer event for a handle other than the one in
    [pendingTimer] changes nothing, and after an activity signal this holds
    for the handle that was scheduled before. *)
Theorem stale_timer_never_fires s h :
  reachable s ->
  (pendingTimer s <> Some h -> step s (EvTimer h) = s) /\
  (pendingTimer s = Some h ->
   forall key shiftKey,
     step (step s (EvKeydown key shiftKey)) (EvTimer h)
     = step s (EvKeydown key shiftKey)).
Proof.
  intros Hr.
  assert (Hstale : forall s0, reachable s0 -> pendingTimer s0 <> Some h ->
                     step s0 (EvTimer h) = s0).
  { intros s0 Hr0 Hn. pose proof (Inv_reachable s0 Hr0) as HI. cbn [step].
    destruct (fire_handle_cases h s0 HI) as [E|(dl & Ht & _)]; [exact E|].
    exfalso. apply Hn.
    assert (Hne : pendingChunks s0 <> []).
    { apply (Inv_timer_chunks s0 (h, dl) HI). rewrite Ht. now left. }
    destruct (Inv_neq_cons s0 HI Hne) as (h' & dl' & Hp & Ht').
    rewrite Ht in Ht'. now injection Ht' as -> _. }
  split; [now apply Hstale|].
  intros Hp key shiftKey. apply Hstale; [now apply reachable_step|].
  pose proof (Inv_reachable s Hr) as HI.
  destruct (inv_slot s HI) as [_ Hs]. rewrite Hp in Hs.
  destruct Hs as (_ & Hlt & _).
  assert (Hne : pendingChunks s <> []).
  { intros E. apply (inv_armed s HI) in E. congruence. }
  assert (Hb : pendingTimer (bumpActivityTimer s) = Some (nextHandle s) /\
               nextHandle (bumpActivityTimer s) = nextHandle s + 1).
  { rewrite bumpActivityTimer_armed by (try exact (inv_slot s HI); exact Hne).
    cbn. auto. }
  destruct Hb as [Hb Hn]. cbn [step]. unfold onKeydown.
  destruct (JsString.eqb key (lit "Enter") && negb shiftKey).
  - pose proof (Inv_bumpActivityTimer s HI) as HI1.
    set (s1 := bumpActivityTimer s) in *.
    destruct (trim (inputValue s1)) as [|c q] eqn:E.
    + rewrite sendMessage_blank by exact E. rewrite Hb.
      intros X. injection X as X. lia.
    + assert (Ht : trim (inputValue s1) <> []) by (rewrite E; discriminate).
      rewrite sendMessage_chunk by exact Ht.
      rewrite bumpActivityTimer_armed;
        [|exact (inv_slot s1 HI1)|cbn; now destruct (pendingChunks s1)].
      cbn. rewrite Hn. intros X. injection X as X. lia.
  - rewrite Hb. intros X. injection X as X. lia.
Qed.

(** Callback 1 is replaced by a keystroke at 1000; when the browser still
    tries to run it at 4000 nothing is sent. *)
Lemma stale_timer_never_fires_replaced :
  let s' := run (commit (lit "a")
                 ++ [EvTick 1000; EvKeydown (lit "x") false; EvTick 3000])
              init in
  pendingTimer s' = Some 2 /\ clock s' = 4000 /\
  step s' (EvTimer 1) = s' /\ sent s' = [].
Proof.
  cbv zeta.
  assert (Hr : reachable (run (commit (lit "a")
                               ++ [EvTick 1000; EvKeydown (lit "x") false;
                                   EvTick 3000]) init))
    by (now exists (commit (lit "a")
                    ++ [EvTick 1000; EvKeydown (lit "x") false; EvTick 3000])).
  destruct (stale_timer_never_fires _ 1 Hr) as (H & _).
  split; [vm_compute; reflexivity|]. split; [vm_compute; reflexivity|].
  split; [|vm_compute; reflexivity].
  apply H. vm_compute. discriminate.
Defined.

Lemma controls_ok_same s s' :
  sendDisabled s' = sendDisabled s -> typingBubbleEl s' = typingBubbleEl s ->
  inflight s' = inflight s -> controls_ok s -> controls_ok s'.
Proof. unfold controls_ok. intros -> -> ->. auto. Qed.

Lemma controls_fields_bump s :
  sendDisabled (bumpActivityTimer s) = sendDisabled s /\
  typingBubbleEl (bumpActivityTimer s) = typingBubbleEl s /\
  inflight (bumpActivityTimer s) = inflight s.
Proof.
  pose proof (beside_timer_bump s) as B. unfold beside_timer in B.
  injection B as _ _ B3 _ B5 _ B7 _ _ _ _ _. auto.
Qed.

Lemma controls_fields_appendMessage msg s s' :
  appendMessage msg s = Some s' ->
  sendDisabled s' = sendDisabled s /\
  typingBubbleEl s' = typingBubbleEl s /\
  inflight s' = inflight s.
Proof.
  intros E. destruct (appendMessage_rows _ _ _ E) as (B & _).
  unfold beside_messages in B. injection B as _ _ _ B4 B5 _ _ _ B9 _ _ _ _ _.
  auto.
Qed.

Lemma controls_fields_sendMessage s :
  sendDisabled (sendMessage s) = sendDisabled s /\
  typingBubbleEl (sendMessage s) = typingBubbleEl s /\
  inflight (sendMessage s) = inflight s.
Proof.
  unfold sendMessage.
  destruct (trim (inputValue s)) as [|c q]; [auto|].
  destruct (appendMessage _ s) as [s1|] eqn:E; [|auto].
  destruct (controls_fields_appendMessage _ _ _ E) as (A1 & A2 & A3).
  set (s3 := set_pushed _ _).
  destruct (controls_fields_bump s3) as (B1 & B2 & B3).
  rewrite B1, B2, B3. subst s3. cbn. auto.
Qed.

Lemma controls_ok_flush s : controls_ok s -> controls_ok (flushPendingChunks s).
Proof.
  intros [H1 H2]. unfold flushPendingChunks.
  destruct (pendingChunks s) as [|c r]; [now split|].
  destruct (trim (join space (c :: r))) as [|x y]; [now split|].
  unfold fetchSend, showTypingIndicator, setSending, scrollToBottom,
    controls_ok.
  destruct (typingBubbleEl s); cbn; split; intros _.
  all: try (intros E; apply app_eq_nil in E; destruct E as [_ E];
            discriminate).
  all: rewrite existsb_app; cbn; apply orb_true_r.
Qed.

Lemma controls_ok_run_timers fuel limit : forall s,
  controls_ok s -> controls_ok (run_timers fuel limit s).
Proof.
  induction fuel as [|n IH]; intros s H; cbn [run_timers]; [exact H|].
  destruct (next_due limit (timers s)) as [t|]; [|exact H].
  apply IH. unfold fire. now apply controls_ok_flush.
Qed.

Lemma controls_ok_idle s :
  sendDisabled s = false -> typingBubbleEl s = false -> controls_ok s.
Proof. unfold controls_ok. intros -> ->. split; discriminate. Qed.

(** Dropping a request whose body is being read leaves every request whose
    fetch is pending, because ids are not shared. *)
Lemma existsb_fetching_drop r s :
  requests_ok s -> find_request r AwaitJson s = true ->
  existsb fetching (inflight (drop_request r s)) = existsb fetching (inflight s).
Proof.
  intros (_ & Hd & _). unfold find_request, drop_request. cbn.
  induction (inflight s) as [|q l IH]; [reflexivity|].
  cbn [map] in Hd. inversion Hd as [|? ? Hq Hd']; subst.
  cbn [existsb filter]. intros Hf.
  destruct (req_id q =? r) eqn:E; cbn [negb andb] in *.
  - apply N.eqb_eq in E. unfold fetching at 2.
    assert (Hrest : filter (fun q0 => negb (req_id q0 =? r)) l = l).
    { apply forallb_filter_id. apply forallb_forall. intros x Hx.
      apply negb_true_iff, N.eqb_neq. intros Ex. apply Hq.
      rewrite E, <- Ex. now apply in_map. }
    rewrite Hrest.
    destruct (req_phase q) eqn:P; cbn in *; [|reflexivity].
    assert (Hl : existsb (fun q0 => (req_id q0 =? r) &&
                                    match req_phase q0 with
                                    | AwaitFetch => false
                                    | AwaitJson => true
                                    end) l = true) by exact Hf.
    apply existsb_exists in Hl. destruct Hl as (x & Hx & Ex).
    apply andb_true_iff in Ex. destruct Ex as [Ex _]. apply N.eqb_eq in Ex.
    exfalso. apply Hq. rewrite E, <- Ex. now apply in_map.
  - cbn [existsb]. now rewrite (IH Hd' Hf).
Qed.

Lemma typingBubbleEl_hide s : typingBubbleEl (hideTypingIndicator s) = false.
Proof.
  unfold hideTypingIndicator.
  destruct (typingBubbleEl s) eqn:E; [reflexivity|exact E].
Qed.

Lemma controls_ok_flush_catch s : controls_ok (flush_catch s).
Proof.
  apply controls_ok_idle; [reflexivity|].
  unfold flush_catch, setSending, console_error. cbn.
  apply typingBubbleEl_hide.
Qed.

Lemma controls_ok_step s e :
  requests_ok s -> controls_ok s -> controls_ok (step s e).
Proof.
  intros HR H. destruct e; cbn [step].
  - exact H.
  - unfold onKeydown.
    destruct (controls_fields_bump s) as (B1 & B2 & B3).
    destruct (controls_fields_sendMessage (bumpActivityTimer s))
      as (S1 & S2 & S3).
    destruct (JsString.eqb key (lit "Enter") && negb shiftKey);
      eapply controls_ok_same; try exact H; congruence.
  - unfold onClickSend. destruct (sendDisabled s) eqn:E; [exact H|].
    destruct (controls_fields_sendMessage s) as (S1 & S2 & S3).
    eapply controls_ok_same; try exact H; congruence.
  - unfold wait.
    apply controls_ok_same
      with (s := run_timers (length (timers s)) (clock s + d) s);
      try reflexivity.
    now apply controls_ok_run_timers.
  - exact H.
  - unfold fire_handle. destruct (find _ (timers s)); [|exact H].
    unfold fire. now apply controls_ok_flush.
  - unfold flush_fetched.
    destruct (find_request r AwaitFetch s); [|exact H].
    destruct res as [|[|]]; cbn [negb].
    + apply controls_ok_flush_catch.
    + destruct H as [H1 H2]. unfold controls_ok, await_json. cbn.
      rewrite typingBubbleEl_hide, sendDisabled_hide, inflight_hide.
      split; [|discriminate].
      intros E. specialize (H1 E). now destruct (inflight s).
    + apply controls_ok_idle; [reflexivity|].
      unfold setSending, console_error. cbn.
      apply typingBubbleEl_hide.
  - unfold flush_parsed.
    destruct (find_request r AwaitJson s) eqn:Hf; [|exact H].
    pose proof (existsb_fetching_drop r s HR Hf) as Hx.
    pose proof (controls_ok_flush_catch (drop_request r s)) as Hc.
    assert (Hk : forall s1,
               typingBubbleEl s1 = typingBubbleEl s ->
               inflight s1 = inflight (drop_request r s) ->
               controls_ok (setSending false s1)).
    { intros s1 T I. destruct H as [_ H2]. unfold controls_ok, setSending. cbn.
      split; [discriminate|]. rewrite T, I, Hx. exact H2. }
    destruct body as [|data]; [exact Hc|].
    destruct (reply_present data) as [[|]|]; [|now apply Hk|exact Hc].
    destruct (get data (lit "bot")) as [bot|]; [|exact Hc].
    destruct (appendMessage bot (drop_request r s)) as [s1|] eqn:E;
      [|exact Hc].
    destruct (controls_fields_appendMessage _ _ _ E) as (_ & A2 & A3).
    now apply Hk.
  - unfold loadHistory_fetched.
    destruct (history s); try exact H. destruct res; exact H.
  - unfold loadHistory_parsed.
    destruct (history s); try exact H.
    destruct body as [|data]; [exact H|].
    destruct data; try exact H.
    destruct (forEach_rows items
                (set_messagesEl [] (set_history HistoryDone s))) as (B & _).
    destruct (forEach_appendMessage items _) as [s2 fin]. cbn [fst] in B.
    unfold beside_messages in B.
    injection B as _ _ _ B4 B5 _ _ _ B9 _ _ _ _ _.
    eapply controls_ok_same; try exact H;
      unfold scrollToBottom, console_error; destruct fin; cbn in *; congruence.
Qed.

(** In every reachable state the send button is disabled only while some
    request is in flight, and [typingBubbleEl] is set only while some
    request is still waiting for its response: neither is left behind by a
    request that has completed. *)
Theorem controls_released s :
  reachable s ->
  (sendDisabled s = true -> inflight s <> []) /\
  (typingBubbleEl s = true -> existsb fetching (inflight s) = true).
Proof.
  intros [evs ->].
  assert (H : requests_ok init /\ controls_ok init).
  { split; [repeat split; constructor|split; discriminate]. }
  revert H. unfold run. generalize init.
  induction evs as [|e r IH]; intros s [HR HC]; [exact HC|].
  cbn. apply IH. split; [now apply requests_ok_step|now apply controls_ok_step].
Qed.

(** While "a" waits for its response the button is disabled and the
    indicator referenced, on behalf of request 0. *)
Lemma controls_released_in_flight :
  let s := run (commit (lit "a") ++ [EvWait 4000]) init in
  sendDisabled s = true /\ typingBubbleEl s = true /\
  inflight s <> [] /\ existsb fetching (inflight s) = true.
Proof.
  cbv zeta. destruct (controls_released _ reachable_a_sent) as (H1 & H2).
  split; [reflexivity|]. split; [reflexivity|].
  split; [apply H1|apply H2]; reflexivity.
Defined.

End Controls.
